(** * birdeye-go: the request pipeline of the Birdeye API client

    A shallow embedding of the Go package [birdeye] (client.go, errors.go,
    token_overview.go, and the files of the price and token-security
    lookups) and the properties its specification states about it.

    Conventions of the embedding:
    - a Go [int] or [time.Duration] is a [Z]; the code only compares and
      stores them, it does no arithmetic that could wrap;
    - a Go [string] is a [string] of bytes, a [[]byte] is a [list byte];
    - a Go [error] interface value is an [option error], [None] being [nil];
    - a Go function returning [(v, err)] where exactly one of the two is
      meaningful returns a [result]: [Ok v] for [(v, nil)], [Err e] for
      [(nil, e)];
    - a Go map is a [gmap];
    - the network and the caller's logger are explicit state. *)

From Stdlib Require Import ZArith String Ascii DecimalString.
From Stdlib.Strings Require Import Byte.
From stdpp Require Import gmap strings list.
From Equations Require Import Equations.

Open Scope string_scope.
Open Scope Z_scope.

(** ** errors.go *)

(** [type APIError struct]. *)
Record APIError := mkAPIError {
  StatusCode : Z;
  Message : string;
  Path : string
}.

(** Go error values. [errorString] is what [errors.New] and a [fmt.Errorf]
    without [%w] build; [wrapError] is what [fmt.Errorf] with [%w] builds (the
    formatted text and the wrapped error, returned by [Unwrap]); [apiError] is
    a [*APIError]. An error made by another package behaves, for this
    package, as one of the first two: it has a text, and either unwraps to
    another error or does not. *)
Inductive error :=
| errorString (s : string)
| wrapError (msg : string) (err : error)
| apiError (e : APIError).

(** Fallible results: [Ok v] is the Go return [(v, nil)], [Err e] is
    [(nil, e)]. *)
Inductive result (A : Type) :=
| Ok (a : A)
| Err (e : error).
Arguments Ok {A} a.
Arguments Err {A} e.

(** [strconv.Itoa], the [%d] verb. *)
Definition itoa (n : Z) : string := NilZero.string_of_int (Z.to_int n).

(** [func (e *APIError) Error() string]. *)
Definition APIError_Error (e : APIError) : string :=
  "birdeye api error: " +:+ Path e +:+ " returned status "
    +:+ itoa (StatusCode e) +:+ ": " +:+ Message e.

(** The [Error()] method of the [error] interface. *)
Definition error_Error (err : error) : string :=
  match err with
  | errorString s => s
  | wrapError msg _ => msg
  | apiError e => APIError_Error e
  end.

(** [errors.New]. *)
Definition errors_New (s : string) : error := errorString s.

(** [fmt.Errorf(prefix + "%s", s)]: no [%w], so a plain error. *)
Definition fmt_Errorf_s (prefix s : string) : error :=
  errorString (prefix +:+ s).

(** [fmt.Errorf(prefix + "%w", err)]. *)
Definition fmt_Errorf_w (prefix : string) (err : error) : error :=
  wrapError (prefix +:+ error_Error err) err.

Definition StatusOK : Z := 200.
Definition StatusNotFound : Z := 404.
Definition StatusTooManyRequests : Z := 429.

(** [func (e *APIError) IsNotFound() bool]. *)
Definition IsNotFound (e : APIError) : bool :=
  StatusCode e =? StatusNotFound.

(** [func (e *APIError) IsRateLimited() bool]. *)
Definition IsRateLimited (e : APIError) : bool :=
  StatusCode e =? StatusTooManyRequests.

(** [func (e *APIError) IsServerError() bool]. *)
Definition IsServerError (e : APIError) : bool :=
  StatusCode e >=? 500.

(** [func (e *APIError) IsClientError() bool]. *)
Definition IsClientError (e : APIError) : bool :=
  (StatusCode e >=? 400) && (StatusCode e <? 500).

(** [errors.As(err, &apiErr)] for a target of type [*APIError]: the first
    [*APIError] on the [Unwrap] chain of [err]. *)
Fixpoint errors_As_APIError (err : error) : option APIError :=
  match err with
  | errorString _ => None
  | wrapError _ inner => errors_As_APIError inner
  | apiError e => Some e
  end.

(** [func IsAPIError(err error)], returning the [APIError] found on the chain
    and whether there is one. *)
Definition IsAPIError (err : option error) : option APIError * bool :=
  match err with
  | None => (None, false)
  | Some e =>
      match errors_As_APIError e with
      | Some apiErr => (Some apiErr, true)
      | None => (None, false)
      end
  end.

(** ** The HTTP vocabulary of client.go *)

(** [context.Context], as far as this package looks at it: [ctx.Err()] is
    [nil] until the context is cancelled or past its deadline, and that same
    error from then on. *)
Record Context := mkContext {
  ctx_Err : option error
}.

(** An [io.ReadCloser] response body: what [io.ReadAll] returns on it (the
    bytes read, and the error that stopped the read if one did), and what
    [Close] returns. *)
Record ReadCloser := mkReadCloser {
  io_ReadAll : list byte * option error;
  Close : option error
}.

(** [http.Response]. *)
Record Response := mkResponse {
  http_StatusCode : Z;
  http_Body : ReadCloser
}.

(** [url.Values] and [http.Header] are both [map[string][]string]. *)
Abbreviation Values := (gmap string (list string)).

(** [http.Request]: context, method, URL and header. *)
Record Request := mkRequest {
  req_ctx : Context;
  req_Method : string;
  req_URL : string;
  req_Header : Values
}.

(** The logger that [retryablehttp.NewClient] installs by default; the
    package replaces it by [nil]. *)
Inductive retryLogger := defaultRetryLogger.

(** [retryablehttp.Client], the fields [NewClient] assigns. [CheckRetry]
    receives the context, the response (a pointer, [None] when nil) and the
    error of an attempt; it panics ([None]) when it dereferences a nil
    response. *)
Record RetryableClient := mkRetryableClient {
  RetryMax : Z;
  RetryWaitMin : Z;
  RetryWaitMax : Z;
  HTTPClient_Timeout : Z;
  RetryLogger : option retryLogger;
  CheckRetry : Context -> option Response -> option error ->
               option (bool * option error)
}.

(** The closure [NewClient] assigns to [retryClient.CheckRetry]
    (client.go, lines 175-197). It captures nothing. *)
Definition NewClient_CheckRetry (ctx : Context) (resp : option Response)
    (err : option error) : option (bool * option error) :=
  match ctx_Err ctx with
  | Some ctxErr => Some (false, Some ctxErr)
  | None =>
      match err with
      | Some e => Some (true, Some e)
      | None =>
          match resp with
          | None => None
          | Some r =>
              if http_StatusCode r =? StatusTooManyRequests
              then Some (true, None)
              else if http_StatusCode r >=? 500
              then Some (true, None)
              else Some (false, None)
          end
      end
  end.

(** ** What the package is linked against

    The Go standard library, [shopspring/decimal] and
    [hashicorp/go-retryablehttp] are not part of the package; the embedding
    takes what the package uses of them as the fields of one class. *)
Class Platform := {
  (** the state of the network and of the remote server *)
  World : Type;
  (** the state of whatever the caller's logger writes to *)
  LogSink : Type;
  (** [decimal.Decimal] and its [String] method *)
  decimal : Type;
  decimal_String : decimal -> string;
  (** [url.Values.Encode] *)
  url_Values_Encode : Values -> string;
  (** [textproto.CanonicalMIMEHeaderKey], applied by [http.Header.Set] *)
  textproto_CanonicalMIMEHeaderKey : string -> string;
  (** the checks of [http.NewRequestWithContext] on the method and the URL:
      the error it returns, if any *)
  http_NewRequest_check : string -> string -> option error;
  (** [Do] on the [*http.Client] that [retryablehttp]'s [StandardClient]
      returns: the retry loop of that library *)
  retryablehttp_Do :
    RetryableClient -> Request -> World -> result Response * World
}.

(** [json.Unmarshal] into the envelope
    [struct { Success bool; Message string; Data T }] of [parseResponse]. *)
Record Envelope (T : Type) := mkEnvelope {
  env_Success : bool;
  env_Message : string;
  env_Data : T
}.
Arguments mkEnvelope {T} _ _ _.
Arguments env_Success {T} _.
Arguments env_Message {T} _.
Arguments env_Data {T} _.

Class Unmarshal (T : Type) := json_Unmarshal : list byte -> result (Envelope T).

(** A value passed as [interface{}] to the logger. *)
Inductive any :=
| any_string (s : string)
| any_int (n : Z)
| any_bool (b : bool)
| any_error (e : error).

Section Birdeye.
Context `{P : Platform}.

(** ** client.go: configuration *)

Definition DefaultBaseURL : string := "https://public-api.birdeye.so".
Definition Millisecond : Z := 1000000.
Definition Second : Z := 1000 * Millisecond.
Definition DefaultTimeout : Z := 10 * Second.
Definition DefaultMaxRetries : Z := 3.
Definition DefaultRetryWaitMin : Z := 500 * Millisecond.
Definition DefaultRetryWaitMax : Z := 3 * Second.
Definition chainSolana : string := "solana".
Definition MethodGet : string := "GET".

(** [type Logger interface]: four methods, each acting on the log sink. *)
Record Logger := mkLogger {
  Debug : string -> list any -> LogSink -> LogSink;
  Info : string -> list any -> LogSink -> LogSink;
  Warn : string -> list any -> LogSink -> LogSink;
  Error : string -> list any -> LogSink -> LogSink
}.

(** [type noopLogger struct{}]: every method has an empty body. *)
Definition noopLogger : Logger :=
  {| Debug := fun _ _ l => l;
     Info := fun _ _ l => l;
     Warn := fun _ _ l => l;
     Error := fun _ _ l => l |}.

(** A [*http.Client]: one the caller built, with the [Do] it has, or the one
    [retryClient.StandardClient()] returns. *)
Inductive HTTPClient :=
| customClient (do : Request -> World -> result Response * World)
| retryableStandardClient (rc : RetryableClient).

(** [type config struct]; [httpClient] is a pointer, [None] when nil. *)
Record config := mkConfig {
  baseURL : string;
  timeout : Z;
  maxRetries : Z;
  retryWaitMin : Z;
  retryWaitMax : Z;
  logger : Logger;
  httpClient : option HTTPClient
}.

(** [type Option func(c *config)]: the update an option makes in place. *)
Definition Option := config -> config.

Definition WithBaseURL (url : string) : Option := fun c =>
  {| baseURL := url; timeout := timeout c; maxRetries := maxRetries c;
     retryWaitMin := retryWaitMin c; retryWaitMax := retryWaitMax c;
     logger := logger c; httpClient := httpClient c |}.

Definition WithTimeout (d : Z) : Option := fun c =>
  {| baseURL := baseURL c; timeout := d; maxRetries := maxRetries c;
     retryWaitMin := retryWaitMin c; retryWaitMax := retryWaitMax c;
     logger := logger c; httpClient := httpClient c |}.

Definition WithMaxRetries (n : Z) : Option := fun c =>
  {| baseURL := baseURL c; timeout := timeout c; maxRetries := n;
     retryWaitMin := retryWaitMin c; retryWaitMax := retryWaitMax c;
     logger := logger c; httpClient := httpClient c |}.

Definition WithRetryWait (min max : Z) : Option := fun c =>
  {| baseURL := baseURL c; timeout := timeout c; maxRetries := maxRetries c;
     retryWaitMin := min; retryWaitMax := max;
     logger := logger c; httpClient := httpClient c |}.

Definition WithLogger (l : Logger) : Option := fun c =>
  {| baseURL := baseURL c; timeout := timeout c; maxRetries := maxRetries c;
     retryWaitMin := retryWaitMin c; retryWaitMax := retryWaitMax c;
     logger := l; httpClient := httpClient c |}.

(** [client] is a pointer; passing nil stores nil. *)
Definition WithHTTPClient (client : option HTTPClient) : Option := fun c =>
  {| baseURL := baseURL c; timeout := timeout c; maxRetries := maxRetries c;
     retryWaitMin := retryWaitMin c; retryWaitMax := retryWaitMax c;
     logger := logger c; httpClient := client |}.

(** [type Client struct]. *)
Record Client := mkClient {
  client_apiKey : string;
  client_baseURL : string;
  client_httpClient : HTTPClient;
  client_logger : Logger
}.

(** The defaults [NewClient] starts from (client.go, lines 145-152). *)
Definition defaultConfig : config :=
  {| baseURL := DefaultBaseURL;
     timeout := DefaultTimeout;
     maxRetries := DefaultMaxRetries;
     retryWaitMin := DefaultRetryWaitMin;
     retryWaitMax := DefaultRetryWaitMax;
     logger := noopLogger;
     httpClient := None |}.

(** [for _, opt := range opts { opt(cfg) }] from a given configuration. *)
Definition applyOptions (opts : list Option) (cfg : config) : config :=
  fold_left (fun c opt => opt c) opts cfg.

(** The configuration [NewClient] works with once the options are applied
    (client.go, lines 145-157). *)
Definition resolveConfig (opts : list Option) : config :=
  applyOptions opts defaultConfig.

(** The retrying client [NewClient] configures when no client was supplied
    (client.go, lines 165-197). *)
Definition newRetryClient (cfg : config) : RetryableClient :=
  {| RetryMax := maxRetries cfg;
     RetryWaitMin := retryWaitMin cfg;
     RetryWaitMax := retryWaitMax cfg;
     HTTPClient_Timeout := timeout cfg;
     RetryLogger := None;
     CheckRetry := NewClient_CheckRetry |}.

(** [func NewClient(apiKey string, opts ...Option)]. *)
Definition NewClient (apiKey : string) (opts : list Option) : result Client :=
  if decide (apiKey = "") then Err (errors_New "api key is required")
  else
    let cfg := resolveConfig opts in
    let httpClient :=
      match httpClient cfg with
      | Some custom => custom
      | None => retryableStandardClient (newRetryClient cfg)
      end in
    Ok {| client_apiKey := apiKey;
          client_baseURL := baseURL cfg;
          client_httpClient := httpClient;
          client_logger := logger cfg |}.

(** ** client.go: transport *)

(** The state a call runs in: the network, the log sink, and the requests
    handed to the HTTP client so far, oldest first. [sent] is a record kept
    by the embedding; the code never reads it. *)
Record State := mkState {
  world : World;
  logsink : LogSink;
  sent : list Request
}.

(** Computations of the package: state in, value and state out. *)
Definition M (A : Type) : Type := State -> A * State.

Definition ret {A} (a : A) : M A := fun st => (a, st).

Definition bind {A B} (m : M A) (k : A -> M B) : M B :=
  fun st => let (a, st') := m st in k a st'.

Notation "'let*' x ':=' m 'in' k" := (bind m (fun x => k))
  (at level 10, x name, k at level 200).

(** A call of one method of the client's logger. *)
Definition logWith (method : Logger -> string -> list any -> LogSink -> LogSink)
    (c : Client) (msg : string) (keysAndValues : list any) : M unit :=
  fun st =>
    (tt, {| world := world st;
            logsink := method (client_logger c) msg keysAndValues (logsink st);
            sent := sent st |}).

(** [Do] of [*http.Client], on either kind of client. *)
Definition HTTPClient_Do (cl : HTTPClient)
    : Request -> World -> result Response * World :=
  match cl with
  | customClient do => do
  | retryableStandardClient rc => retryablehttp_Do rc
  end.

(** [c.httpClient.Do(req)]: the request goes out, the world moves on. *)
Definition httpClient_Do (c : Client) (req : Request) : M (result Response) :=
  fun st =>
    let (r, w) := HTTPClient_Do (client_httpClient c) req (world st) in
    (r, {| world := w; logsink := logsink st; sent := sent st ++ [req] |}).

(** [http.NewRequestWithContext(ctx, method, url, nil)]. *)
Definition http_NewRequestWithContext (ctx : Context) (method url : string)
    : result Request :=
  match http_NewRequest_check method url with
  | Some err => Err err
  | None => Ok {| req_ctx := ctx; req_Method := method; req_URL := url;
                  req_Header := ∅ |}
  end.

(** [req.Header.Set(key, value)]. *)
Definition Header_Set (key value : string) (req : Request) : Request :=
  {| req_ctx := req_ctx req; req_Method := req_Method req;
     req_URL := req_URL req;
     req_Header :=
       <[textproto_CanonicalMIMEHeaderKey key := [value]]> (req_Header req) |}.

(** [url.Values.Set(key, value)]. *)
Definition Values_Set (key value : string) (v : Values) : Values :=
  <[key := [value]]> v.

(** [func truncateForLog(s string, maxLen int) string], for [maxLen >= 0]
    (its one call passes 500). *)
Definition truncateForLog (s : string) (maxLen : nat) : string :=
  if (String.length s <=? maxLen)%nat then s
  else substring 0 maxLen s +:+ "...(truncated)".

(** The URL [doGet] builds (client.go, lines 213-216). *)
Definition requestURL (c : Client) (path : string) (params : Values) : string :=
  let reqURL := client_baseURL c +:+ path in
  if bool_decide (0 < size params)%nat
  then reqURL +:+ "?" +:+ url_Values_Encode params
  else reqURL.

(** The request [doGet] hands to the HTTP client, when it can be created
    (client.go, lines 213-227). *)
Definition buildRequest (c : Client) (ctx : Context) (path : string)
    (params : Values) : result Request :=
  match http_NewRequestWithContext ctx MethodGet (requestURL c path params) with
  | Err err => Err err
  | Ok req =>
      Ok (Header_Set "x-chain" chainSolana
           (Header_Set "Accept" "application/json"
             (Header_Set "X-API-KEY" (client_apiKey c) req)))
  end.

(** [func (c *Client) doGet(ctx, path, params) ([]byte, error)]. The
    deferred [resp.Body.Close()] runs once the result is computed. *)
Definition doGet (c : Client) (ctx : Context) (path : string) (params : Values)
    : M (result (list byte)) :=
  match buildRequest c ctx path params with
  | Err err => ret (Err (fmt_Errorf_w "create request: " err))
  | Ok req =>
      let* _ := logWith Debug c "birdeye api request"
                  [any_string "method"; any_string MethodGet;
                   any_string "path"; any_string path] in
      let* r := httpClient_Do c req in
      match r with
      | Err err =>
          let* _ := logWith Error c "birdeye api request failed"
                      [any_string "path"; any_string path;
                       any_string "error"; any_error err] in
          ret (Err (fmt_Errorf_w "execute request: " err))
      | Ok resp =>
          let* out :=
            match io_ReadAll (http_Body resp) with
            | (_, Some err) =>
                ret (Err (fmt_Errorf_w "read response body: " err))
            | (body, None) =>
                if negb (http_StatusCode resp =? StatusOK)
                then
                  let* _ := logWith Error c "birdeye api error response"
                              [any_string "path"; any_string path;
                               any_string "status_code";
                               any_int (http_StatusCode resp);
                               any_string "body";
                               any_string
                                 (truncateForLog (string_of_list_byte body) 500)]
                  in
                  ret (Err (apiError
                              {| StatusCode := http_StatusCode resp;
                                 Message := string_of_list_byte body;
                                 Path := path |}))
                else ret (Ok body)
            end in
          let* _ :=
            match Close (http_Body resp) with
            | Some closeErr =>
                logWith Warn c "failed to close response body"
                  [any_string "error"; any_error closeErr]
            | None => ret tt
            end in
          ret out
      end
  end.

(** [func parseResponse[T any](body []byte)], returning [*T] and [error]. *)
Definition parseResponse {T : Type} {U : Unmarshal T} (body : list byte)
    : result T :=
  match json_Unmarshal body with
  | Err err => Err (fmt_Errorf_w "unmarshal response: " err)
  | Ok resp =>
      if negb (env_Success resp) then
        if negb (String.eqb (env_Message resp) "")
        then Err (fmt_Errorf_s "birdeye api error: " (env_Message resp))
        else Err (errors_New "birdeye api returned success=false")
      else Ok (env_Data resp)
  end.

(** ** Prices: [GetPrice] and [GetMultiplePrices] *)

(** [type PriceData struct]. *)
Record PriceData := mkPriceData {
  Value : decimal;
  UpdateUnixTime : Z;
  UpdateHumanTime : string;
  PriceChange24h : decimal
}.

Context {UPriceData : Unmarshal PriceData}.
Context {UPrices : Unmarshal (gmap string decimal)}.

(** The one query parameter of a single-token lookup. *)
Definition addressParams (address : string) : Values :=
  Values_Set "address" address ∅.

(** [func (c *Client) GetPrice(ctx, address)]. *)
Definition GetPrice (c : Client) (ctx : Context) (address : string)
    : M (result PriceData) :=
  if String.eqb address "" then
    ret (Err (apiError {| StatusCode := 400;
                          Message := "address is required";
                          Path := "/defi/price" |}))
  else
    let* r := doGet c ctx "/defi/price" (addressParams address) in
    match r with
    | Err err => ret (Err err)
    | Ok body =>
        match parseResponse body with
        | Err err => ret (Err err)
        | Ok price =>
            let* _ := logWith Debug c "fetched token price"
                        [any_string "address"; any_string address;
                         any_string "price";
                         any_string (decimal_String (Value price));
                         any_string "change_24h";
                         any_string (decimal_String (PriceChange24h price))] in
            ret (Ok price)
        end
    end.

Definition batchSize : nat := 100.

(** [addresses[i:j]] for [i <= j <= len(addresses)]. *)
Definition slice {A} (l : list A) (i j : nat) : list A :=
  take (j - i) (drop i l).

(** [strings.Join(batch, ",")]. *)
Definition strings_Join (elems : list string) (sep : string) : string :=
  String.concat sep elems.

(** The query parameter of one batch ([GetMultiplePrices], lines 224-227). *)
Definition batchParams (batch : list string) : Values :=
  Values_Set "list_address" (strings_Join batch ",") ∅.

(** [for addr, price := range *batchPrices { result[addr] = price }]. *)
Definition mergeBatch (batchPrices res : gmap string decimal)
    : gmap string decimal :=
  map_fold (fun addr price acc => <[addr := price]> acc) res batchPrices.

(** The loop of [GetMultiplePrices] (lines 217-243), entered with
    index [i] and the map [res] built so far. An error leaves the loop and
    the function at once. *)
Equations? batchLoop (c : Client) (ctx : Context) (addresses : list string)
    (i : nat) (res : gmap string decimal) (st : State)
    : result (gmap string decimal) * State
    by wf (length addresses - i)%nat lt :=
  batchLoop c ctx addresses i res st with decide (i < length addresses)%nat => {
    | right _ => (Ok res, st)
    | left _ =>
        let end_ := if decide (length addresses < i + batchSize)%nat
                    then length addresses else (i + batchSize)%nat in
        let batch := slice addresses i end_ in
        match doGet c ctx "/defi/multi_price" (batchParams batch) st with
        | (Err err, st1) => (Err err, st1)
        | (Ok body, st1) =>
            match parseResponse body with
            | Err err => (Err err, st1)
            | Ok batchPrices =>
                batchLoop c ctx addresses (i + batchSize)%nat
                  (mergeBatch batchPrices res) st1
            end
        end }.
Proof. unfold batchSize. lia. Qed.

(** [func (c *Client) GetMultiplePrices(ctx, addresses)]. *)
Definition GetMultiplePrices (c : Client) (ctx : Context)
    (addresses : list string) : M (result (gmap string decimal)) :=
  if decide (length addresses = 0)%nat then ret (Ok ∅)
  else if existsb (fun addr => String.eqb addr "") addresses then
    ret (Err (apiError {| StatusCode := 400;
                          Message := "address list contains empty string";
                          Path := "/defi/multi_price" |}))
  else
    let* r := batchLoop c ctx addresses 0 ∅ in
    match r with
    | Err err => ret (Err err)
    | Ok res =>
        let* _ := logWith Debug c "fetched multiple token prices"
                    [any_string "requested";
                     any_int (Z.of_nat (length addresses));
                     any_string "received"; any_int (Z.of_nat (size res))] in
        ret (Ok res)
    end.

(** ** token_overview.go *)

(** [type TokenExtensions struct]. *)
Record TokenExtensions := mkTokenExtensions {
  Coingecko : string;
  Twitter : string;
  Website : string;
  Telegram : string;
  Discord : string;
  Description : string
}.

(** [type TokenOverview struct]; [Extensions] is a pointer. *)
Record TokenOverview := mkTokenOverview {
  Address : string;
  Symbol : string;
  Name : string;
  Decimals : Z;
  LogoURI : string;
  Liquidity : decimal;
  Price : decimal;
  PriceChange24hPercent : decimal;
  Volume24h : decimal;
  Volume24hUSD : decimal;
  Volume24hChangePercent : decimal;
  MarketCap : decimal;
  Supply : decimal;
  CirculatingSupply : decimal;
  Holder : Z;
  Trade24h : Z;
  Trade24hChangePercent : decimal;
  Buy24h : Z;
  Sell24h : Z;
  UniqueWallet24h : Z;
  UniqueWallet24hChangePercent : decimal;
  LastTradeUnixTime : Z;
  LastTradeHumanTime : string;
  Extensions : option TokenExtensions
}.

Context {UTokenOverview : Unmarshal TokenOverview}.

(** [func (c *Client) GetTokenOverview(ctx, address)]. *)
Definition GetTokenOverview (c : Client) (ctx : Context) (address : string)
    : M (result TokenOverview) :=
  if String.eqb address "" then
    ret (Err (apiError {| StatusCode := 400;
                          Message := "address is required";
                          Path := "/defi/token_overview" |}))
  else
    let* r := doGet c ctx "/defi/token_overview" (addressParams address) in
    match r with
    | Err err => ret (Err err)
    | Ok body =>
        match parseResponse body with
        | Err err => ret (Err err)
        | Ok overview =>
            let* _ := logWith Debug c "fetched token overview"
                        [any_string "address"; any_string address;
                         any_string "symbol"; any_string (Symbol overview);
                         any_string "name"; any_string (Name overview);
                         any_string "liquidity";
                         any_string (decimal_String (Liquidity overview));
                         any_string "volume_24h";
                         any_string (decimal_String (Volume24hUSD overview));
                         any_string "holders"; any_int (Holder overview)] in
            ret (Ok overview)
        end
    end.

(** ** Token security: [GetTokenSecurity] *)

(** [type TransferFeeData struct]. *)
Record TransferFeeData := mkTransferFeeData {
  TransferFeeBPS : Z;
  MaxFee : string;
  FeeAuthority : string;
  WithdrawAuthority : string
}.

(** [type TokenSecurity struct]; the two authorities and [TransferFeeData]
    are pointers. *)
Record TokenSecurity := mkTokenSecurity {
  MintAuthority : option string;
  FreezeAuthority : option string;
  CreatorAddress : string;
  CreatorBalance : string;
  CreatorPercentage : string;
  OwnerAddress : string;
  OwnerBalance : string;
  OwnerPercentage : string;
  Top10HolderBalance : string;
  Top10HolderPercent : string;
  Top10UserBalance : string;
  Top10UserPercent : string;
  TotalSupply : string;
  IsToken2022 : bool;
  TransferFeeEnable : bool;
  TransferFeeData_ : option TransferFeeData;
  NonTransferable : bool;
  MutableMetadata : bool
}.

(** [func (ts *TokenSecurity) HasMintAuthority() bool]. *)
Definition HasMintAuthority (ts : TokenSecurity) : bool :=
  match MintAuthority ts with
  | Some a => negb (String.eqb a "")
  | None => false
  end.

(** [func (ts *TokenSecurity) HasFreezeAuthority() bool]. *)
Definition HasFreezeAuthority (ts : TokenSecurity) : bool :=
  match FreezeAuthority ts with
  | Some a => negb (String.eqb a "")
  | None => false
  end.

Context {UTokenSecurity : Unmarshal TokenSecurity}.

(** [func (c *Client) GetTokenSecurity(ctx, address)]. *)
Definition GetTokenSecurity (c : Client) (ctx : Context) (address : string)
    : M (result TokenSecurity) :=
  if String.eqb address "" then
    ret (Err (apiError {| StatusCode := 400;
                          Message := "address is required";
                          Path := "/defi/token_security" |}))
  else
    let* r := doGet c ctx "/defi/token_security" (addressParams address) in
    match r with
    | Err err => ret (Err err)
    | Ok body =>
        match parseResponse body with
        | Err err => ret (Err err)
        | Ok security =>
            let* _ := logWith Debug c "fetched token security"
                        [any_string "address"; any_string address;
                         any_string "has_mint_auth";
                         any_bool (HasMintAuthority security);
                         any_string "has_freeze_auth";
                         any_bool (HasFreezeAuthority security);
                         any_string "creator_pct";
                         any_string (CreatorPercentage security);
                         any_string "top10_pct";
                         any_string (Top10HolderPercent security)] in
            ret (Ok security)
        end
    end.

End Birdeye.

(** ** Vocabulary of the specification *)

(** The fields of [config], and the value of one of them. *)
Inductive field :=
| F_baseURL | F_timeout | F_maxRetries | F_retryWaitMin | F_retryWaitMax
| F_logger | F_httpClient.

Inductive fieldval `{P : Platform} :=
| V_string (s : string)
| V_int (n : Z)
| V_logger (l : Logger)
| V_client (cl : option HTTPClient).

Definition field_of `{P : Platform} (f : field) (c : config) : fieldval :=
  match f with
  | F_baseURL => V_string (baseURL c)
  | F_timeout => V_int (timeout c)
  | F_maxRetries => V_int (maxRetries c)
  | F_retryWaitMin => V_int (retryWaitMin c)
  | F_retryWaitMax => V_int (retryWaitMax c)
  | F_logger => V_logger (logger c)
  | F_httpClient => V_client (httpClient c)
  end.

(** An option changes at most the field [f]: every other field of every
    configuration is as before. *)
Definition overwrites_only `{P : Platform} (f : field) (opt : Option) : Prop :=
  forall (c : config) (g : field), g <> f -> field_of g (opt c) = field_of g c.

(** The six option constructors of the package, with their arguments. No
    other [Option] can be written outside the package, [config] being
    unexported. *)
Inductive OptionCall `{P : Platform} :=
| CallWithBaseURL (url : string)
| CallWithTimeout (d : Z)
| CallWithMaxRetries (n : Z)
| CallWithRetryWait (min max : Z)
| CallWithLogger (l : Logger)
| CallWithHTTPClient (client : option HTTPClient).

Definition option_of `{P : Platform} (o : OptionCall) : Option :=
  match o with
  | CallWithBaseURL url => WithBaseURL url
  | CallWithTimeout d => WithTimeout d
  | CallWithMaxRetries n => WithMaxRetries n
  | CallWithRetryWait min max => WithRetryWait min max
  | CallWithLogger l => WithLogger l
  | CallWithHTTPClient client => WithHTTPClient client
  end.

(** The fields an option constructor assigns, with the values assigned. *)
Definition assigned `{P : Platform} (o : OptionCall)
    : list (field * fieldval) :=
  match o with
  | CallWithBaseURL url => [(F_baseURL, V_string url)]
  | CallWithTimeout d => [(F_timeout, V_int d)]
  | CallWithMaxRetries n => [(F_maxRetries, V_int n)]
  | CallWithRetryWait min max =>
      [(F_retryWaitMin, V_int min); (F_retryWaitMax, V_int max)]
  | CallWithLogger l => [(F_logger, V_logger l)]
  | CallWithHTTPClient client => [(F_httpClient, V_client client)]
  end.

Definition targets `{P : Platform} (o : OptionCall) : list field :=
  (assigned o).*1.

(** The retry policy of section 4.2, for a decision function [check]:
    - with the context cancelled or expired, no retry, and the context's
      error is handed back, whatever the attempt gave;
    - otherwise an attempt that ended in an error is retried, and its error
      handed back;
    - otherwise the attempt has a response, and it is retried exactly when
      the status is 429 or at least 500; no error is handed back. *)
Definition follows_retry_policy
    (check : Context -> option Response -> option error ->
             option (bool * option error)) : Prop :=
  (forall ctx resp err ctxErr,
     ctx_Err ctx = Some ctxErr ->
     check ctx resp err = Some (false, Some ctxErr)) /\
  (forall ctx resp e,
     ctx_Err ctx = None ->
     check ctx resp (Some e) = Some (true, Some e)) /\
  (forall ctx r,
     ctx_Err ctx = None ->
     exists retry,
       check ctx (Some r) None = Some (retry, None) /\
       (retry = true <->
          http_StatusCode r = 429 \/ http_StatusCode r >= 500)).

(** The chunks of section 4.4: consecutive runs of [batchSize] keys, the
    last one possibly shorter; there are [ceil (N / batchSize)] of them. *)
Definition chunkCount (n : nat) : nat := ((n + 99) / 100)%nat.

(** The chunks of the keys from index [i] on. *)
Definition chunksFrom (keys : list string) (i : nat) : list (list string) :=
  map (fun k => take batchSize (drop (i + k * batchSize) keys))
      (seq 0 (chunkCount (length keys - i))).

Definition chunksOf (keys : list string) : list (list string) :=
  chunksFrom keys 0.

(** The union of the decoded maps, taken in the order they arrive: a key
    that is in two of them keeps the value of the later one. *)
Definition mergeAll {V} (maps : list (gmap string V)) : gmap string V :=
  fold_left (fun acc m => m ∪ acc) maps ∅.

Section BatchRuns.
Context `{P : Platform} {UPrices : Unmarshal (gmap string decimal)}.

(** The request of one chunk. *)
Definition batchRequest (c : Client) (ctx : Context) (batch : list string)
    : result Request :=
  buildRequest c ctx "/defi/multi_price" (batchParams batch).

(** What one chunk comes to: its request through [doGet], then its body
    through [parseResponse]. *)
Definition fetchBatch (c : Client) (ctx : Context) (batch : list string)
    (st : State) : result (gmap string decimal) * State :=
  match doGet c ctx "/defi/multi_price" (batchParams batch) st with
  | (Err err, st1) => (Err err, st1)
  | (Ok body, st1) => (parseResponse body, st1)
  end.

(** The batch coordinator in the words of section 4.4: the chunks one after
    the other, each merged into the aggregate, stopping at the first one
    that fails. *)
Fixpoint runBatches (c : Client) (ctx : Context) (batches : list (list string))
    (res : gmap string decimal) (st : State)
    : result (gmap string decimal) * State :=
  match batches with
  | [] => (Ok res, st)
  | batch :: rest =>
      match fetchBatch c ctx batch st with
      | (Err err, st1) => (Err err, st1)
      | (Ok batchPrices, st1) =>
          runBatches c ctx rest (batchPrices ∪ res) st1
      end
  end.

(** [succeed c ctx batches st maps st']: from [st], each of [batches] in
    turn is fetched and decoded without error, giving [maps] and leaving
    [st']. *)
Inductive succeed (c : Client) (ctx : Context)
    : list (list string) -> State -> list (gmap string decimal) -> State -> Prop :=
| succeed_nil st : succeed c ctx [] st [] st
| succeed_cons batch rest st m st1 maps st2 :
    fetchBatch c ctx batch st = (Ok m, st1) ->
    succeed c ctx rest st1 maps st2 ->
    succeed c ctx (batch :: rest) st (m :: maps) st2.

(** [answered cl reqs w maps w']: from the network state [w], the HTTP
    client answers each of [reqs] in turn with a 200 whose body is read in
    full and decodes to a successful envelope; [maps] are the data of these
    envelopes and [w'] is the network state left. *)
Inductive answered (cl : HTTPClient)
    : list Request -> World -> list (gmap string decimal) -> World -> Prop :=
| answered_nil w : answered cl [] w [] w
| answered_cons req reqs w resp w1 body env maps w2 :
    HTTPClient_Do cl req w = (Ok resp, w1) ->
    http_StatusCode resp = 200 ->
    io_ReadAll (http_Body resp) = (body, None) ->
    json_Unmarshal body = Ok env ->
    env_Success env = true ->
    answered cl reqs w1 maps w2 ->
    answered cl (req :: reqs) w (env_Data env :: maps) w2.

End BatchRuns.

(** ** A platform to run examples on

    The network is a script: each request consumes the next scripted result,
    and an exhausted script refuses the connection. Decimals are integers;
    the logger's sink is the list of messages logged. *)
Definition scripted_Do (req : Request) (w : list (result Response))
    : result Response * list (result Response) :=
  match w with
  | [] => (Err (errorString "connection refused"), [])
  | r :: w' => (r, w')
  end.

#[local] Instance scripted : Platform := {|
  World := list (result Response);
  LogSink := list string;
  decimal := Z;
  decimal_String := itoa;
  url_Values_Encode := fun v =>
    match v !! "list_address" with
    | Some [x] => "list_address=" +:+ x
    | _ => "address"
    end;
  textproto_CanonicalMIMEHeaderKey := fun k => k;
  http_NewRequest_check := fun _ _ => None;
  retryablehttp_Do := fun _ => scripted_Do
|}.

(** A stand-in for [json.Unmarshal]: no bytes is a syntax error, a body that
    starts with [f] is an envelope with [success] false and no message, one
    that starts with [m] is such an envelope with the body as its message,
    anything else is a successful envelope whose data is [data body]. *)
Definition exampleDecoder {T} (data : list byte -> T) : Unmarshal T :=
  fun body =>
    match body with
    | [] => Err (errorString "unexpected end of JSON input")
    | b :: _ =>
        if Byte.eqb b "f"%byte then Ok (mkEnvelope false "" (data body))
        else if Byte.eqb b "m"%byte
        then Ok (mkEnvelope false (string_of_list_byte body) (data body))
        else Ok (mkEnvelope true "" (data body))
    end.

(** Each body decodes to the one-entry map from its text to 1. *)
Definition examplePrices : Unmarshal (gmap string Z) :=
  exampleDecoder (fun body => {[ string_of_list_byte body := 1 ]}).

(** Each body decodes to the same price record. *)
Definition examplePriceData : Unmarshal (@PriceData scripted) :=
  exampleDecoder (fun _ => @mkPriceData scripted 2 1703980800 "" 5).

(** A 200 response with the given body, read and closed without error. *)
Definition okResponse (body : string) : result Response :=
  Ok {| http_StatusCode := 200;
        http_Body := {| io_ReadAll := (list_byte_of_string body, None);
                        Close := None |} |}.

(** The client [NewClient "k"] builds on this platform. *)
Definition exampleClient : Client :=
  {| client_apiKey := "k";
     client_baseURL := DefaultBaseURL;
     client_httpClient := retryableStandardClient (newRetryClient defaultConfig);
     client_logger := noopLogger |}.

Definition background : Context := {| ctx_Err := None |}.

(** A response with the given status and body, read and closed without
    error. *)
Definition errorResponse (status : Z) (body : string) : result Response :=
  Ok {| http_StatusCode := status;
        http_Body := {| io_ReadAll := (list_byte_of_string body, None);
                        Close := None |} |}.

(** The state in which the network has the given script ahead of it, and
    nothing was logged or sent yet. *)
Definition exampleState (script : list (result Response)) : State :=
  @mkState scripted script [] [].

(** Sample payloads on the example platform. *)
Definition sampleOverview : @TokenOverview scripted :=
  @mkTokenOverview scripted "addr" "SYM" "Sample" 9 "" 1 2 3 4 5 6 7 8 9
    100 10 11 12 13 14 15 1703980800 "" None.

Definition sampleSecurity : TokenSecurity :=
  mkTokenSecurity None (Some "") "" "" "1.5" "" "" "" "" "30" "" "" ""
    false false None false false.

Definition exampleOverview : Unmarshal (@TokenOverview scripted) :=
  exampleDecoder (fun _ => sampleOverview).

Definition exampleSecurity : Unmarshal TokenSecurity :=
  exampleDecoder (fun _ => sampleSecurity).

(** A response whose body breaks off while it is read. *)
Definition brokenResponse (status : Z) (partial : string) : result Response :=
  Ok {| http_StatusCode := status;
        http_Body :=
          {| io_ReadAll := (list_byte_of_string partial,
                            Some (errorString "unexpected EOF"));
             Close := None |} |}.

(** ** Vocabulary of the further properties *)

(** [err] wrapped by [fmt.Errorf] with [%w] once for each prefix, the first
    prefix outermost. *)
Definition wrapAll (prefixes : list string) (err : error) : error :=
  foldr fmt_Errorf_w err prefixes.

(** The value the responses give for a key: that of the latest map that has
    the key, if any has. *)
Definition latestPrice {V} (maps : list (gmap string V)) (k : string)
    : option V :=
  fold_left (fun acc m => match m !! k with Some v => Some v | None => acc end)
            maps None.

(** ** The retry loop of go-retryablehttp

    What [Do] does on the client [StandardClient] returns, for a
    [retryablehttp.Client] without [ErrorHandler] (the package sets none).
    [inner] is one attempt: [Do] on the library's inner HTTP client. Waiting
    between attempts takes time and has no other effect here; URLs carry no
    password for the library to redact, and no redirect is followed. *)

(** The error of a client that gives up: [fmt.Errorf] of
    "%s %s giving up after %d attempt(s)", followed by ": %w" when the last
    attempt or the retry decision left an error. *)
Definition retryablehttp_giveUp (req : Request) (attempt : Z)
    (err : option error) : error :=
  let text := req_Method req +:+ " " +:+ req_URL req +:+ " giving up after "
                +:+ itoa attempt +:+ " attempt(s)" in
  match err with
  | None => errorString text
  | Some e => wrapError (text +:+ ": " +:+ error_Error e) e
  end.

Section RetryLoop.
Context {W : Type}.
Variable rc : RetryableClient.
Variable inner : Request -> W -> result Response * W.

(** What [Do] returns once the loop is left after [attempt] attempts: the
    response when the last attempt gave one and the decision was "no retry"
    with no error; otherwise no response, and the give-up error. By default
    the response of a retried status is closed and not returned. *)
Definition retryablehttp_finish (req : Request) (attempt : Z)
    (r : result Response) (shouldRetry : bool) (checkErr : option error)
    : result Response :=
  match r, checkErr, shouldRetry with
  | Ok resp, None, false => Ok resp
  | Ok _, _, _ => Err (retryablehttp_giveUp req attempt checkErr)
  | Err doErr, None, _ => Err (retryablehttp_giveUp req attempt (Some doErr))
  | Err _, Some e, _ => Err (retryablehttp_giveUp req attempt (Some e))
  end.

(** The loop, with [remain] retries left before attempt number [attempt].
    A decision that panics is given as an error; the closure of [NewClient]
    does not panic on the outcome of an attempt. A context that is done when
    the wait starts ends the call with the context's error. *)
Fixpoint retryablehttp_attempts (req : Request) (remain : nat) (attempt : Z)
    (w : W) : result Response * W :=
  let (r, w1) := inner req w in
  let decision :=
    match r with
    | Ok resp => CheckRetry rc (req_ctx req) (Some resp) None
    | Err doErr => CheckRetry rc (req_ctx req) None (Some doErr)
    end in
  match decision with
  | None => (Err (errorString "panic in CheckRetry"), w1)
  | Some (shouldRetry, checkErr) =>
      if shouldRetry then
        match remain with
        | O => (retryablehttp_finish req attempt r shouldRetry checkErr, w1)
        | S remain' =>
            match ctx_Err (req_ctx req) with
            | Some ctxErr => (Err ctxErr, w1)
            | None => retryablehttp_attempts req remain' (attempt + 1) w1
            end
        end
      else (retryablehttp_finish req attempt r shouldRetry checkErr, w1)
  end.

(** [retryablehttp.Client.Do]: up to [RetryMax] retries after the first
    attempt. *)
Definition retryablehttp_Client_Do (req : Request) (w : W)
    : result Response * W :=
  retryablehttp_attempts req (Z.to_nat (RetryMax rc)) 1 w.

(** The double quote, for [strconv.Quote]. *)
Definition dquote : string := String "034"%char EmptyString.

(** [Do] on the [*http.Client] of [StandardClient]: the loop is its
    transport, and [net/http] wraps an error of the transport in a
    [*url.Error] (operation, quoted URL, the error, which it unwraps to). *)
Definition StandardClient_Do (req : Request) (w : W) : result Response * W :=
  match retryablehttp_Client_Do req w with
  | (Ok resp, w1) => (Ok resp, w1)
  | (Err e, w1) =>
      (Err (wrapError ("Get " +:+ dquote +:+ req_URL req +:+ dquote +:+ ": "
                         +:+ error_Error e) e), w1)
  end.

End RetryLoop.

(** The example platform with the library's retry loop in place of the
    single attempt of [scripted]: each attempt consumes the next scripted
    result. *)
Definition retrying : Platform := {|
  World := list (result Response);
  LogSink := list string;
  decimal := Z;
  decimal_String := itoa;
  url_Values_Encode := @url_Values_Encode scripted;
  textproto_CanonicalMIMEHeaderKey := fun k => k;
  http_NewRequest_check := fun _ _ => None;
  retryablehttp_Do := fun rc => StandardClient_Do rc scripted_Do
|}.

(** The client [NewClient "k"] builds on that platform: the retrying client
    with the default settings. *)
Definition retryingClient : @Client retrying :=
  @mkClient retrying "k" DefaultBaseURL
    (@retryableStandardClient retrying
       (@newRetryClient retrying (@defaultConfig retrying)))
    (@noopLogger retrying).

(** The state on the retrying platform in which the network has the given
    script ahead of it, and nothing was logged or sent yet. *)
Definition retryingState (script : list (result Response)) : @State retrying :=
  @mkState retrying script [] [].

(** The stand-in decoders on the retrying platform. *)
Definition retryingPriceData : Unmarshal (@PriceData retrying) :=
  exampleDecoder (fun _ => @mkPriceData retrying 2 1703980800 "" 5).

Definition retryingOverview : Unmarshal (@TokenOverview retrying) :=
  exampleDecoder (fun _ =>
    @mkTokenOverview retrying "addr" "SYM" "Sample" 9 "" 1 2 3 4 5 6 7 8 9
      100 10 11 12 13 14 15 1703980800 "" None).

(** A response that reaches [doGet] as a response: any response a
    caller-built client returns, and on the retrying client one whose status
    the retry decision does not retry. A 429 or a status of 500 or more on
    the retrying client is retried and, the retries used up, comes back as
    an error. *)
Definition handedBack `{P : Platform} (c : Client) (resp : Response) : Prop :=
  (exists do, client_httpClient c = customClient do) \/
  (http_StatusCode resp <> 429 /\ http_StatusCode resp < 500).

(** * Properties *)

(** ** errors.go *)

(** The text of errors_test.go, [TestAPIError_Error]. *)
Example APIError_Error_test :
  APIError_Error (mkAPIError 404 "Token not found" "/defi/price")
  = "birdeye api error: /defi/price returned status 404: Token not found".
Proof. reflexivity. Qed.

(** errors_test.go, [TestIsAPIError]: a wrapped [*APIError] is found. *)
Example IsAPIError_wrapped :
  IsAPIError (Some (fmt_Errorf_w "failed to get price: "
                      (apiError (mkAPIError 429 "rate limited" ""))))
  = (Some (mkAPIError 429 "rate limited" ""), true).
Proof. reflexivity. Qed.

Example IsAPIError_nil : IsAPIError None = (None, false).
Proof. reflexivity. Qed.


(** The tables of errors_test.go. *)
Example TestAPIError_IsNotFound :
  map (fun s => IsNotFound (mkAPIError s "" "")) [404; 200; 500; 429]
  = [true; false; false; false].
Proof. reflexivity. Qed.

Example TestAPIError_IsRateLimited :
  map (fun s => IsRateLimited (mkAPIError s "" "")) [429; 200; 404; 500]
  = [true; false; false; false].
Proof. reflexivity. Qed.

Example TestAPIError_IsServerError :
  map (fun s => IsServerError (mkAPIError s "" ""))
      [500; 502; 503; 504; 599; 400; 404; 200]
  = [true; true; true; true; true; false; false; false].
Proof. reflexivity. Qed.

Example TestAPIError_IsClientError :
  map (fun s => IsClientError (mkAPIError s "" ""))
      [400; 401; 403; 404; 499; 500; 200]
  = [true; true; true; true; true; false; false].
Proof. reflexivity. Qed.

Example IsAPIError_other :
  IsAPIError (Some (errors_New "some other error")) = (None, false).
Proof. reflexivity. Qed.

Lemma IsClientError_range (e : APIError) :
  IsClientError e = true <-> 400 <= StatusCode e <= 499.
Proof. unfold IsClientError. rewrite andb_true_iff. lia. Qed.

(** C9. The classification predicates of an [APIError] depend on its
    [StatusCode] only: [IsNotFound] holds exactly at 404, [IsRateLimited]
    exactly at 429, [IsServerError] exactly from 500 on, [IsClientError]
    exactly from 400 to 499. The categories overlap: a 404 and a 429 are
    client errors too. *)
Theorem classification_by_status :
  (forall e : APIError,
     (IsNotFound e = true <-> StatusCode e = 404) /\
     (IsRateLimited e = true <-> StatusCode e = 429) /\
     (IsServerError e = true <-> StatusCode e >= 500) /\
     (IsClientError e = true <-> 400 <= StatusCode e <= 499)) /\
  (forall e1 e2 : APIError,
     StatusCode e1 = StatusCode e2 ->
     IsNotFound e1 = IsNotFound e2 /\
     IsRateLimited e1 = IsRateLimited e2 /\
     IsServerError e1 = IsServerError e2 /\
     IsClientError e1 = IsClientError e2) /\
  (forall e : APIError, IsNotFound e = true -> IsClientError e = true) /\
  (forall e : APIError, IsRateLimited e = true -> IsClientError e = true) /\
  (exists e : APIError, IsClientError e = true /\ IsNotFound e = true) /\
  (exists e : APIError, IsClientError e = true /\ IsRateLimited e = true).
Proof.
  split; [| split; [| split; [| split; [| split]]]].
  - intros e. split; [| split; [| split]].
    + unfold IsNotFound, StatusNotFound. lia.
    + unfold IsRateLimited, StatusTooManyRequests. lia.
    + unfold IsServerError. lia.
    + apply IsClientError_range.
  - intros e1 e2 Heq.
    unfold IsNotFound, IsRateLimited, IsServerError, IsClientError.
    rewrite Heq. repeat split.
  - intros e. unfold IsNotFound, StatusNotFound. intros H.
    apply IsClientError_range. lia.
  - intros e. unfold IsRateLimited, StatusTooManyRequests. intros H.
    apply IsClientError_range. lia.
  - exists (mkAPIError 404 "" ""). split; reflexivity.
  - exists (mkAPIError 429 "" ""). split; reflexivity.
Qed.

(** ** client.go: the retry decision *)

Lemma CheckRetry_cancelled ctx resp err ctxErr :
  ctx_Err ctx = Some ctxErr ->
  NewClient_CheckRetry ctx resp err = Some (false, Some ctxErr).
Proof. intros H. unfold NewClient_CheckRetry. rewrite H. reflexivity. Qed.

Lemma CheckRetry_error ctx resp e :
  ctx_Err ctx = None ->
  NewClient_CheckRetry ctx resp (Some e) = Some (true, Some e).
Proof. intros H. unfold NewClient_CheckRetry. rewrite H. reflexivity. Qed.

Lemma CheckRetry_status ctx r :
  ctx_Err ctx = None ->
  NewClient_CheckRetry ctx (Some r) None
  = Some ((http_StatusCode r =? 429) || (http_StatusCode r >=? 500), None).
Proof.
  intros H. unfold NewClient_CheckRetry, StatusTooManyRequests. rewrite H.
  destruct (http_StatusCode r =? 429); [reflexivity |].
  destruct (http_StatusCode r >=? 500); reflexivity.
Qed.

Lemma CheckRetry_follows_policy : follows_retry_policy NewClient_CheckRetry.
Proof.
  split; [| split].
  - intros ctx resp err ctxErr. apply CheckRetry_cancelled.
  - intros ctx resp e. apply CheckRetry_error.
  - intros ctx r Hctx. eexists. split; [by apply CheckRetry_status |].
    rewrite orb_true_iff. lia.
Qed.

Section Construction.
Context `{P : Platform}.

Lemma NewClient_nonempty apiKey opts :
  apiKey <> "" ->
  NewClient apiKey opts
  = Ok {| client_apiKey := apiKey;
          client_baseURL := baseURL (resolveConfig opts);
          client_httpClient :=
            match httpClient (resolveConfig opts) with
            | Some custom => custom
            | None => retryableStandardClient (newRetryClient (resolveConfig opts))
            end;
          client_logger := logger (resolveConfig opts) |}.
Proof. intros H. unfold NewClient. destruct (decide (apiKey = "")); done. Qed.

Lemma NewClient_empty opts :
  NewClient "" opts = Err (errors_New "api key is required").
Proof. reflexivity. Qed.

(** C1. A client built without an HTTP client override carries the retrying
    client of [retryablehttp], and the retry decision installed on it is the
    closure of [NewClient], which follows the policy: with the context
    cancelled it answers "no retry" with the context's error, whatever the
    response or error of the attempt; otherwise it answers "retry" when the
    attempt ended in an error, and for a response exactly when the status is
    429 or at least 500, so "no retry" for every other status. *)
Theorem installed_retry_policy (apiKey : string) (opts : list Option)
    (c : Client) :
  NewClient apiKey opts = Ok c ->
  httpClient (resolveConfig opts) = None ->
  exists rc,
    client_httpClient c = retryableStandardClient rc /\
    CheckRetry rc = NewClient_CheckRetry /\
    follows_retry_policy (CheckRetry rc).
Proof.
  intros Hnew Hnone. unfold NewClient in Hnew.
  destruct (decide (apiKey = "")); [discriminate |].
  injection Hnew as <-. simpl. rewrite Hnone.
  eexists. split; [reflexivity |]. split; [reflexivity |].
  apply CheckRetry_follows_policy.
Qed.

End Construction.

Lemma installed_retry_policy_witness :
  exists rc,
    client_httpClient exampleClient = retryableStandardClient rc /\
    CheckRetry rc = NewClient_CheckRetry /\
    follows_retry_policy (CheckRetry rc).
Proof.
  apply (installed_retry_policy (P := scripted) "k" []); reflexivity.
Defined.

(** A 404 and a 400 are not retried, a 429 and a 503 are. *)
Example CheckRetry_statuses :
  map (fun s => NewClient_CheckRetry background
                  (Some (mkResponse s (mkReadCloser ([], None) None))) None)
      [200; 400; 404; 429; 499; 500; 503]
  = map (fun b => Some (b, None)) [false; false; false; true; false; true; true].
Proof. reflexivity. Qed.

(** ** client.go: construction *)

Section Configuration.
Context `{P : Platform}.

(** C7. With an empty API key [NewClient] fails, whatever the options, with
    the caller-input error "api key is required". With a non-empty key and no
    option it succeeds; the configuration is the documented defaults (the
    public endpoint, 10 s, 3 retries, waits from 500 ms to 3 s, in
    nanoseconds, the no-op logger, no client override), and the client is
    built from them. The no-op logger leaves the log sink untouched. *)
Theorem NewClient_defaults :
  (forall opts, NewClient "" opts = Err (errorString "api key is required")) /\
  resolveConfig []
  = {| baseURL := "https://public-api.birdeye.so";
       timeout := 10 * 1000000000;
       maxRetries := 3;
       retryWaitMin := 500 * 1000000;
       retryWaitMax := 3 * 1000000000;
       logger := noopLogger;
       httpClient := None |} /\
  (forall apiKey, apiKey <> "" ->
     NewClient apiKey []
     = Ok {| client_apiKey := apiKey;
             client_baseURL := "https://public-api.birdeye.so";
             client_httpClient :=
               retryableStandardClient
                 {| RetryMax := 3;
                    RetryWaitMin := 500 * 1000000;
                    RetryWaitMax := 3 * 1000000000;
                    HTTPClient_Timeout := 10 * 1000000000;
                    RetryLogger := None;
                    CheckRetry := NewClient_CheckRetry |};
             client_logger := noopLogger |}) /\
  (forall msg kv sink,
     Debug noopLogger msg kv sink = sink /\ Info noopLogger msg kv sink = sink /\
     Warn noopLogger msg kv sink = sink /\ Error noopLogger msg kv sink = sink).
Proof.
  split; [| split; [| split]].
  - intros opts. apply NewClient_empty.
  - reflexivity.
  - intros apiKey Hne. rewrite NewClient_nonempty by done. reflexivity.
  - intros. repeat split.
Qed.

(** Every option constructor leaves alone the fields it does not target. *)
Lemma option_frame (o : OptionCall) (c : config) (g : field) :
  g ∉ targets o -> field_of g (option_of o c) = field_of g c.
Proof.
  intros Hg. destruct o, g; try reflexivity;
    exfalso; apply Hg; unfold targets; simpl; set_solver.
Qed.

(** Every option constructor stores its arguments in the fields it targets. *)
Lemma option_assigns (o : OptionCall) (c : config) (g : field) (v : fieldval) :
  (g, v) ∈ assigned o -> field_of g (option_of o c) = v.
Proof.
  intros Hin. destruct o; simpl in Hin;
    repeat (apply elem_of_cons in Hin as [[= -> ->] | Hin]; [reflexivity |]);
    by apply elem_of_nil in Hin.
Qed.

Lemma applyOptions_app (opts1 opts2 : list Option) (c : config) :
  applyOptions (opts1 ++ opts2) c = applyOptions opts2 (applyOptions opts1 c).
Proof. apply fold_left_app. Qed.

(** Options that do not target a field leave it as it was. *)
Lemma applyOptions_frame (post : list OptionCall) (c : config) (g : field) :
  (forall o', o' ∈ post -> g ∉ targets o') ->
  field_of g (applyOptions (map option_of post) c) = field_of g c.
Proof.
  revert c. induction post as [| o post IH]; intros c Hpost; [reflexivity |].
  simpl. rewrite IH.
  - apply option_frame, Hpost. by left.
  - intros o' Ho'. apply Hpost. by right.
Qed.

(** C8, as amended. Every option constructor but [WithRetryWait] assigns
    exactly one field of the configuration, [WithRetryWait] assigns exactly
    two ([retryWaitMin] and [retryWaitMax]); each stores its arguments there
    and leaves every other field unchanged. [NewClient] applies the options
    in call order, so the final value of a field is the one assigned by the
    last option of the argument list that targets it. *)
Theorem options_assign_and_frame :
  (forall (o : OptionCall) c g,
     g ∉ targets o -> field_of g (option_of o c) = field_of g c) /\
  (forall (o : OptionCall) c g v,
     (g, v) ∈ assigned o -> field_of g (option_of o c) = v) /\
  (forall o : OptionCall,
     match o with
     | CallWithRetryWait _ _ => targets o = [F_retryWaitMin; F_retryWaitMax]
     | _ => exists f, targets o = [f] /\ overwrites_only f (option_of o)
     end) /\
  (forall opts opt, resolveConfig (opts ++ [opt]) = opt (resolveConfig opts)) /\
  (forall (pre post : list OptionCall) (o : OptionCall) g v,
     (g, v) ∈ assigned o ->
     (forall o', o' ∈ post -> g ∉ targets o') ->
     field_of g (resolveConfig (map option_of (pre ++ o :: post))) = v).
Proof.
  split; [| split; [| split; [| split]]].
  - apply option_frame.
  - apply option_assigns.
  - intros o. destruct o; try reflexivity;
      (eexists; split; [reflexivity |]); intros c g Hg; by destruct g.
  - intros opts opt. unfold resolveConfig. by rewrite applyOptions_app.
  - intros pre post o g v Hin Hpost. unfold resolveConfig.
    rewrite map_app, applyOptions_app. simpl.
    rewrite applyOptions_frame by done. by apply option_assigns.
Qed.

End Configuration.

(** The claim that every option overwrites exactly one field fails at
    [WithRetryWait]: on the default configuration [WithRetryWait 1 2] changes
    both [retryWaitMin] and [retryWaitMax], so no single field accounts for
    what it changes. *)
Lemma WithRetryWait_overwrites_two_fields :
  field_of F_retryWaitMin (WithRetryWait (P := scripted) 1 2 defaultConfig)
    <> field_of F_retryWaitMin defaultConfig /\
  field_of F_retryWaitMax (WithRetryWait (P := scripted) 1 2 defaultConfig)
    <> field_of F_retryWaitMax defaultConfig /\
  ~ (forall o : OptionCall (P := scripted),
       exists f, overwrites_only f (option_of o)).
Proof.
  split; [| split].
  - intros [=].
  - intros [=].
  - intros Hall. destruct (Hall (CallWithRetryWait 1 2)) as [f Hf].
    assert (field_of F_retryWaitMin (WithRetryWait (P := scripted) 1 2 defaultConfig)
            = field_of F_retryWaitMin defaultConfig
            \/ field_of F_retryWaitMax (WithRetryWait (P := scripted) 1 2 defaultConfig)
            = field_of F_retryWaitMax defaultConfig) as [H | H].
    { destruct f; first [ left; by apply (Hf defaultConfig)
                        | right; by apply (Hf defaultConfig) ]. }
    + discriminate H.
    + discriminate H.
Qed.

(** Later options win: the last [WithBaseURL] and the last [WithTimeout] of
    the list decide. *)
Example last_option_wins :
  let cfg := resolveConfig (P := scripted)
               [WithBaseURL "a"; WithTimeout 1; WithBaseURL "b"; WithTimeout 2] in
  baseURL cfg = "b" /\ timeout cfg = 2.
Proof. split; reflexivity. Qed.

(** [TestNewClient_WithOptions] and [TestNewClient_WithHTTPClient]. *)
Example TestNewClient_WithOptions :
  match NewClient (P := scripted) "test-key"
          [WithBaseURL "https://custom.api.example.com";
           WithTimeout (30 * Second); WithMaxRetries 5] with
  | Ok c => client_baseURL c = "https://custom.api.example.com"
  | Err _ => False
  end.
Proof. reflexivity. Qed.

Example TestNewClient_WithHTTPClient :
  match NewClient (P := scripted) "test-key"
          [WithHTTPClient (Some (customClient scripted_Do))] with
  | Ok c => client_httpClient c = customClient scripted_Do
  | Err _ => False
  end.
Proof. reflexivity. Qed.

(** ** client.go: decoding and transport *)

Section Decoding.
Context {T : Type} {U : Unmarshal T}.

(** C3. When the body decodes to an envelope whose [success] is false,
    [parseResponse] fails with a plain error, not an [APIError]:
    [IsAPIError] finds none in it. Its text is "birdeye api error: " followed
    by the envelope's message when there is one, and the fixed text
    "birdeye api returned success=false" otherwise. *)
Theorem parseResponse_unsuccessful (body : list byte) (env : Envelope T) :
  json_Unmarshal body = Ok env ->
  env_Success env = false ->
  exists err,
    parseResponse body = Err err /\
    IsAPIError (Some err) = (None, false) /\
    (env_Message env <> "" ->
       err = errorString ("birdeye api error: " +:+ env_Message env) /\
       error_Error err = "birdeye api error: " +:+ env_Message env) /\
    (env_Message env = "" ->
       err = errorString "birdeye api returned success=false" /\
       error_Error err = "birdeye api returned success=false").
Proof.
  intros Hdec Hfail. unfold parseResponse. rewrite Hdec, Hfail. simpl.
  destruct (String.eqb_spec (env_Message env) "") as [Hmsg | Hmsg]; simpl.
  - eexists. split; [reflexivity |]. split; [reflexivity |]. split; [done |].
    intros _. split; reflexivity.
  - eexists. split; [reflexivity |]. split; [reflexivity |].
    split; [| done]. intros _. split; reflexivity.
Qed.

(** The other two outcomes of [parseResponse]. *)
Lemma parseResponse_malformed (body : list byte) (e : error) :
  json_Unmarshal body = Err e ->
  parseResponse body = Err (fmt_Errorf_w "unmarshal response: " e).
Proof. intros H. unfold parseResponse. by rewrite H. Qed.

Lemma parseResponse_success (body : list byte) (env : Envelope T) :
  json_Unmarshal body = Ok env ->
  env_Success env = true ->
  parseResponse body = Ok (env_Data env).
Proof. intros H Hs. unfold parseResponse. by rewrite H, Hs. Qed.

End Decoding.

Lemma parseResponse_unsuccessful_witness :
  exists err,
    parseResponse (U := examplePrices) (list_byte_of_string "mint closed")
    = Err err /\
    IsAPIError (Some err) = (None, false) /\
    ("mint closed" <> "" ->
       err = errorString ("birdeye api error: " +:+ "mint closed") /\
       error_Error err = "birdeye api error: " +:+ "mint closed") /\
    ("mint closed" = "" ->
       err = errorString "birdeye api returned success=false" /\
       error_Error err = "birdeye api returned success=false").
Proof.
  apply (parseResponse_unsuccessful (U := examplePrices)
           (list_byte_of_string "mint closed")
           (mkEnvelope false "mint closed" {[ "mint closed" := 1 ]}));
    reflexivity.
Defined.

(** An envelope that failed without a message gives the fixed text. *)
Example parseResponse_no_message :
  parseResponse (U := examplePrices) (list_byte_of_string "f")
  = Err (errorString "birdeye api returned success=false").
Proof. reflexivity. Qed.

Section Transport.
Context `{P : Platform}.

(** [doGet] hands at most one request to the HTTP client: the one it
    built, if it could build it. *)
Lemma doGet_sent c ctx path params st :
  sent (doGet c ctx path params st).2
  = (sent st ++ match buildRequest c ctx path params with
                | Ok req => [req]
                | Err _ => []
                end)%list.
Proof.
  unfold doGet. destruct (buildRequest c ctx path params) as [req | e].
  - unfold bind, ret, logWith, httpClient_Do. simpl.
    destruct (HTTPClient_Do _ _ _) as [[resp | e] w]; simpl; [| done].
    destruct (io_ReadAll (http_Body resp)) as [body [e |]]; simpl.
    + destruct (Close (http_Body resp)); done.
    + destruct (negb _); simpl; destruct (Close (http_Body resp)); done.
  - simpl. by rewrite app_nil_r.
Qed.

(** The value [doGet] returns once the HTTP client has answered. *)
Lemma doGet_answered c ctx path params st req resp w :
  buildRequest c ctx path params = Ok req ->
  HTTPClient_Do (client_httpClient c) req (world st) = (Ok resp, w) ->
  (doGet c ctx path params st).1
  = match io_ReadAll (http_Body resp) with
    | (_, Some err) => Err (fmt_Errorf_w "read response body: " err)
    | (body, None) =>
        if http_StatusCode resp =? 200 then Ok body
        else Err (apiError {| StatusCode := http_StatusCode resp;
                              Message := string_of_list_byte body;
                              Path := path |})
    end.
Proof.
  intros Hreq Hdo. unfold doGet. rewrite Hreq.
  unfold bind, ret, logWith, httpClient_Do. simpl. rewrite Hdo. simpl.
  destruct (io_ReadAll (http_Body resp)) as [body [e |]]; simpl.
  - destruct (Close (http_Body resp)); done.
  - unfold StatusOK. destruct (http_StatusCode resp =? 200); simpl;
      destruct (Close (http_Body resp)); done.
Qed.

(** The network state [doGet] leaves is the one the HTTP client left. *)
Lemma doGet_world c ctx path params st req r w :
  buildRequest c ctx path params = Ok req ->
  HTTPClient_Do (client_httpClient c) req (world st) = (r, w) ->
  world (doGet c ctx path params st).2 = w.
Proof.
  intros Hreq Hdo. unfold doGet. rewrite Hreq.
  unfold bind, ret, logWith, httpClient_Do. simpl. rewrite Hdo. simpl.
  destruct r as [resp | e]; simpl; [| done].
  destruct (io_ReadAll (http_Body resp)) as [body [e |]]; simpl.
  - destruct (Close (http_Body resp)); done.
  - destruct (negb _); simpl; destruct (Close (http_Body resp)); done.
Qed.

(** No request goes out when none can be created. *)
Lemma doGet_not_created c ctx path params st e :
  buildRequest c ctx path params = Err e ->
  doGet c ctx path params st = (Err (fmt_Errorf_w "create request: " e), st).
Proof. intros H. unfold doGet. by rewrite H. Qed.

(** An error of the HTTP client comes back wrapped. *)
Lemma doGet_not_executed c ctx path params st req e w :
  buildRequest c ctx path params = Ok req ->
  HTTPClient_Do (client_httpClient c) req (world st) = (Err e, w) ->
  (doGet c ctx path params st).1 = Err (fmt_Errorf_w "execute request: " e).
Proof.
  intros Hreq Hdo. unfold doGet. rewrite Hreq.
  unfold bind, ret, logWith, httpClient_Do. simpl. by rewrite Hdo.
Qed.

(** What [doGet] makes of a response the HTTP client hands back, the full
    response body being what [io.ReadAll] read of it (with a nil error): a
    status other than 200 gives the [APIError] with that status, the body as
    text for message, and the requested path; a status of 200 gives the body
    bytes as they are. A 404 at [/defi/token_overview] is such an
    [APIError], for which [IsNotFound] holds and [IsRateLimited] does not.
    Which responses the retrying client hands back is another matter, taken
    up in the last part of this file. *)
Lemma doGet_status (c : Client) (ctx : Context) (path : string)
    (params : Values) (st : State) (req : Request) (resp : Response)
    (w : World) (body : list byte) :
  buildRequest c ctx path params = Ok req ->
  HTTPClient_Do (client_httpClient c) req (world st) = (Ok resp, w) ->
  io_ReadAll (http_Body resp) = (body, None) ->
  (http_StatusCode resp <> 200 ->
     (doGet c ctx path params st).1
     = Err (apiError {| StatusCode := http_StatusCode resp;
                        Message := string_of_list_byte body;
                        Path := path |})) /\
  (http_StatusCode resp = 200 ->
     (doGet c ctx path params st).1 = Ok body) /\
  (http_StatusCode resp = 404 -> path = "/defi/token_overview" ->
     exists e,
       (doGet c ctx path params st).1 = Err (apiError e) /\
       IsAPIError (Some (apiError e)) = (Some e, true) /\
       StatusCode e = 404 /\ Path e = "/defi/token_overview" /\
       Message e = string_of_list_byte body /\
       IsNotFound e = true /\ IsRateLimited e = false).
Proof.
  intros Hreq Hdo Hread.
  pose proof (doGet_answered c ctx path params st req resp w Hreq Hdo) as Hget.
  rewrite Hread in Hget. rewrite Hget. split; [| split].
  - intros Hne. destruct (Z.eqb_spec (http_StatusCode resp) 200); done.
  - intros ->. reflexivity.
  - intros Hs ->. rewrite Hs. simpl. eexists. split; [reflexivity |].
    repeat split.
Qed.

End Transport.

Lemma doGet_status_witness :
  (doGet (P := scripted) exampleClient background "/defi/token_overview"
     (addressParams "x") (exampleState [errorResponse 404 "not found"])).1
  = Err (apiError {| StatusCode := 404; Message := "not found";
                     Path := "/defi/token_overview" |}).
Proof.
  edestruct (doGet_status (P := scripted) exampleClient background
               "/defi/token_overview" (addressParams "x")
               (exampleState [errorResponse 404 "not found"]))
    as [Hother _]; [reflexivity | reflexivity | reflexivity |].
  apply Hother. discriminate.
Defined.

(** A response whose body cannot be read gives the read error, wrapped,
    whatever its status. *)
Lemma doGet_unreadable_body `{P : Platform} c ctx path params st req resp w
    partial e :
  buildRequest c ctx path params = Ok req ->
  HTTPClient_Do (client_httpClient c) req (world st) = (Ok resp, w) ->
  io_ReadAll (http_Body resp) = (partial, Some e) ->
  (doGet c ctx path params st).1
  = Err (fmt_Errorf_w "read response body: " e).
Proof.
  intros Hreq Hdo Hread.
  rewrite (doGet_answered c ctx path params st req resp w Hreq Hdo).
  by rewrite Hread.
Qed.

(** ** The single-token lookups *)

Section SingleToken.
Context `{P : Platform} {UPriceData : Unmarshal PriceData}
  {UTokenOverview : Unmarshal TokenOverview}
  {UTokenSecurity : Unmarshal TokenSecurity}.

(** C10. With an empty address, [GetPrice], [GetTokenOverview] and
    [GetTokenSecurity] each return the [APIError] of status 400 and message
    "address is required" whose path is their endpoint, and leave the state
    as it was: no request is handed to the HTTP client. [IsAPIError] finds
    that error and [IsClientError] holds of it. *)
Theorem empty_address_rejected (c : Client) (ctx : Context) (st : State) :
  GetPrice c ctx "" st
  = (Err (apiError (mkAPIError 400 "address is required" "/defi/price")), st) /\
  GetTokenOverview c ctx "" st
  = (Err (apiError (mkAPIError 400 "address is required"
                      "/defi/token_overview")), st) /\
  GetTokenSecurity c ctx "" st
  = (Err (apiError (mkAPIError 400 "address is required"
                      "/defi/token_security")), st) /\
  (forall path,
     IsAPIError (Some (apiError (mkAPIError 400 "address is required" path)))
     = (Some (mkAPIError 400 "address is required" path), true) /\
     IsClientError (mkAPIError 400 "address is required" path) = true).
Proof. repeat split. Qed.

End SingleToken.

(** [TestGetPrice_NotFound], [TestGetPrice_SuccessFalse] and
    [TestGetPrice_Success] on the scripted network. *)
Example TestGetPrice_NotFound :
  match (GetPrice (P := scripted) (UPriceData := examplePriceData)
           exampleClient background "unknown-token"
           (exampleState [errorResponse 404 ""])).1 with
  | Ok _ => False
  | Err err =>
      match IsAPIError (Some err) with
      | (Some apiErr, true) => IsNotFound apiErr = true
      | _ => False
      end
  end.
Proof. reflexivity. Qed.

Example TestGetPrice_SuccessFalse :
  (GetPrice (P := scripted) (UPriceData := examplePriceData)
     exampleClient background "test-token" (exampleState [okResponse "f"])).1
  = Err (errorString "birdeye api returned success=false").
Proof. reflexivity. Qed.

Example TestGetPrice_Success :
  (GetPrice (P := scripted) (UPriceData := examplePriceData)
     exampleClient background "test-token" (exampleState [okResponse "{"])).1
  = Ok (@mkPriceData scripted 2 1703980800 "" 5).
Proof. reflexivity. Qed.

(** A refused connection: the error of the HTTP client comes back wrapped
    under "execute request: ". *)
Example GetPrice_connection_refused :
  (GetPrice (P := scripted) (UPriceData := examplePriceData)
     exampleClient background "test-token" (exampleState [])).1
  = Err (wrapError "execute request: connection refused"
           (errorString "connection refused")).
Proof. reflexivity. Qed.

(** ** [GetMultiplePrices]: the chunks *)

Lemma chunkCount_step n : (0 < n)%nat -> chunkCount n = S (chunkCount (n - 100)).
Proof.
  intros H. unfold chunkCount.
  pose proof (Nat.div_mod_eq (n + 99) 100).
  pose proof (Nat.mod_upper_bound (n + 99) 100).
  pose proof (Nat.div_mod_eq (n - 100 + 99) 100).
  pose proof (Nat.mod_upper_bound (n - 100 + 99) 100).
  lia.
Qed.

Lemma chunksFrom_nil keys i :
  (length keys <= i)%nat -> chunksFrom keys i = [].
Proof.
  intros H. unfold chunksFrom. replace (length keys - i)%nat with 0%nat by lia.
  reflexivity.
Qed.

Lemma chunksFrom_cons keys i :
  (i < length keys)%nat ->
  chunksFrom keys i
  = take batchSize (drop i keys) :: chunksFrom keys (i + batchSize).
Proof.
  intros H. unfold chunksFrom.
  rewrite chunkCount_step by lia. simpl seq. simpl map.
  rewrite Nat.add_0_r. f_equal.
  replace (length keys - (i + batchSize))%nat with (length keys - i - 100)%nat
    by (unfold batchSize; lia).
  rewrite <- seq_shift, map_map. apply map_ext. intros k.
  do 2 f_equal. unfold batchSize. lia.
Qed.

(** Induction along the loop: from [i] to [i + batchSize] while [i] is
    inside the list. *)
Lemma batch_index_ind (keys : list string) (Q : nat -> Prop) :
  (forall i, (length keys <= i)%nat -> Q i) ->
  (forall i, (i < length keys)%nat -> Q (i + batchSize)%nat -> Q i) ->
  forall i, Q i.
Proof.
  intros Hdone Hstep i.
  remember (length keys - i)%nat as n eqn:Hn. revert i Hn.
  induction n as [n IH] using lt_wf_ind. intros i Hn.
  destruct (le_lt_dec (length keys) i) as [Hle | Hlt]; [by apply Hdone |].
  apply Hstep; [done |]. apply (IH (length keys - (i + batchSize))%nat);
    [unfold batchSize; lia | reflexivity].
Qed.

Lemma chunksFrom_concat keys i : concat (chunksFrom keys i) = drop i keys.
Proof.
  induction i as [i Hle | i Hlt IH] using (batch_index_ind keys).
  - rewrite chunksFrom_nil by done. by rewrite drop_ge.
  - rewrite chunksFrom_cons by done. simpl. rewrite IH.
    rewrite <- drop_drop. apply take_drop.
Qed.

Lemma chunksFrom_sizes keys i :
  Forall (fun ch => (0 < length ch <= batchSize)%nat) (chunksFrom keys i).
Proof.
  induction i as [i Hle | i Hlt IH] using (batch_index_ind keys).
  - rewrite chunksFrom_nil by done. constructor.
  - rewrite chunksFrom_cons by done. constructor; [| done].
    rewrite length_take, length_drop. unfold batchSize. lia.
Qed.

Lemma chunksFrom_length keys i :
  length (chunksFrom keys i) = chunkCount (length keys - i).
Proof. unfold chunksFrom. by rewrite length_map, length_seq. Qed.

Lemma chunksOf_150 keys :
  length keys = 150%nat -> chunksOf keys = [take 100 keys; drop 100 keys].
Proof.
  intros H. unfold chunksOf.
  rewrite chunksFrom_cons by lia. rewrite chunksFrom_cons by (unfold batchSize; lia).
  rewrite chunksFrom_nil by (unfold batchSize; lia).
  simpl. unfold batchSize. do 2 f_equal.
  apply take_ge. rewrite length_drop. lia.
Qed.

(** ** [GetMultiplePrices]: the batch coordinator *)

Section Batching.
Context `{P : Platform} {UPrices : Unmarshal (gmap string decimal)}.

Lemma mergeBatch_union (m res : gmap string decimal) :
  mergeBatch m res = m ∪ res.
Proof.
  unfold mergeBatch.
  apply (map_fold_weak_ind (fun r m => r = m ∪ res)).
  - by rewrite (left_id_L ∅ (∪)).
  - intros i x m' r _ ->. by rewrite insert_union_l.
Qed.

(** The slice the loop takes at index [i] is the chunk that starts there. *)
Lemma slice_chunk (keys : list string) (i : nat) :
  slice keys i (if decide (length keys < i + batchSize)%nat
                then length keys else (i + batchSize)%nat)
  = take batchSize (drop i keys).
Proof.
  unfold slice. destruct (decide (length keys < i + batchSize)%nat) as [Hlt | Hge].
  - rewrite !take_ge; [done | |]; rewrite length_drop; lia.
  - f_equal. lia.
Qed.

Lemma batchLoop_done c ctx keys i res st :
  (length keys <= i)%nat -> batchLoop c ctx keys i res st = (Ok res, st).
Proof.
  intros H. rewrite batchLoop_equation_1.
  destruct (decide (i < length keys)%nat); [lia |]. by simp batchLoop.
Qed.

Lemma batchLoop_step c ctx keys i res st :
  (i < length keys)%nat ->
  batchLoop c ctx keys i res st
  = match fetchBatch c ctx (take batchSize (drop i keys)) st with
    | (Err err, st1) => (Err err, st1)
    | (Ok m, st1) => batchLoop c ctx keys (i + batchSize) (m ∪ res) st1
    end.
Proof.
  intros H. rewrite batchLoop_equation_1.
  destruct (decide (i < length keys)%nat); [| lia]. simp batchLoop.
  cbv zeta. rewrite slice_chunk. unfold fetchBatch.
  destruct (doGet _ _ _ _ _) as [[body | err] st1]; [| done].
  destruct (parseResponse body); [| done]. by rewrite mergeBatch_union.
Qed.

(** The index loop of the code runs the chunks of the specification. *)
Lemma batchLoop_runBatches c ctx keys i :
  forall res st,
    batchLoop c ctx keys i res st = runBatches c ctx (chunksFrom keys i) res st.
Proof.
  induction i as [i Hle | i Hlt IH] using (batch_index_ind keys); intros res st.
  - rewrite batchLoop_done, chunksFrom_nil by done. reflexivity.
  - rewrite batchLoop_step, chunksFrom_cons by done. simpl.
    destruct (fetchBatch _ _ _ _) as [[m | err] st1]; [apply IH | done].
Qed.

Lemma no_empty_key (keys : list string) :
  Forall (fun k => k <> "") keys ->
  existsb (fun addr => String.eqb addr "") keys = false.
Proof.
  induction 1 as [| k keys Hk _ IH]; [reflexivity |]. simpl. rewrite IH.
  by destruct (String.eqb_spec k "").
Qed.

Lemma some_empty_key (keys : list string) :
  "" ∈ keys -> existsb (fun addr => String.eqb addr "") keys = true.
Proof.
  intros Hin. apply existsb_exists. exists "". split; [| reflexivity].
  by apply list_elem_of_In.
Qed.

(** [GetMultiplePrices] on valid keys: the chunks, then the summary line. *)
Lemma GetMultiplePrices_valid c ctx keys st :
  keys <> [] ->
  Forall (fun k => k <> "") keys ->
  GetMultiplePrices c ctx keys st
  = match runBatches c ctx (chunksOf keys) ∅ st with
    | (Err err, st1) => (Err err, st1)
    | (Ok res, st1) =>
        (Ok res,
         (logWith Debug c "fetched multiple token prices"
            [any_string "requested"; any_int (Z.of_nat (length keys));
             any_string "received"; any_int (Z.of_nat (size res))] st1).2)
    end.
Proof.
  intros Hne Hkeys. unfold GetMultiplePrices.
  destruct (decide (length keys = 0%nat)) as [H0 | _].
  { by destruct keys. }
  rewrite no_empty_key by done. unfold bind, chunksOf.
  rewrite batchLoop_runBatches.
  destruct (runBatches _ _ _ _ _) as [[res | err] st1]; reflexivity.
Qed.

Lemma runBatches_succeed c ctx batches st maps st' :
  succeed c ctx batches st maps st' ->
  forall res,
    runBatches c ctx batches res st
    = (Ok (fold_left (fun acc m => m ∪ acc) maps res), st').
Proof.
  induction 1 as [| batch rest st m st1 maps st2 Hfetch _ IH]; intros res.
  - reflexivity.
  - simpl. rewrite Hfetch. apply IH.
Qed.

Lemma runBatches_abort c ctx pre st maps st1 :
  succeed c ctx pre st maps st1 ->
  forall batch post res e st2,
    fetchBatch c ctx batch st1 = (Err e, st2) ->
    runBatches c ctx (pre ++ batch :: post) res st = (Err e, st2).
Proof.
  induction 1 as [| b rest st m st1 maps st2 Hfetch _ IH];
    intros batch post res e st3 Hfail; simpl.
  - by rewrite Hfail.
  - rewrite Hfetch. by apply IH.
Qed.

Lemma fetchBatch_sent c ctx batch st r st1 :
  fetchBatch c ctx batch st = (r, st1) ->
  sent st1 = (sent st ++ match batchRequest c ctx batch with
                         | Ok req => [req]
                         | Err _ => []
                         end)%list.
Proof.
  unfold fetchBatch, batchRequest. intros H.
  pose proof (doGet_sent c ctx "/defi/multi_price" (batchParams batch) st) as Hs.
  destruct (doGet _ _ _ _ _) as [[body | err] st']; simpl in Hs;
    injection H as _ <-; exact Hs.
Qed.

(** A chunk succeeds when its request is answered 200 with a body that is
    read in full and decodes to a successful envelope. *)
Lemma fetchBatch_served c ctx batch st req resp w body env :
  batchRequest c ctx batch = Ok req ->
  HTTPClient_Do (client_httpClient c) req (world st) = (Ok resp, w) ->
  http_StatusCode resp = 200 ->
  io_ReadAll (http_Body resp) = (body, None) ->
  json_Unmarshal body = Ok env ->
  env_Success env = true ->
  exists st1,
    fetchBatch c ctx batch st = (Ok (env_Data env), st1) /\
    world st1 = w /\ sent st1 = (sent st ++ [req])%list.
Proof.
  intros Hreq Hdo Hs Hread Hdec Hok. unfold batchRequest in Hreq.
  pose proof (doGet_answered c ctx _ _ st req resp w Hreq Hdo) as Hval.
  pose proof (doGet_world c ctx _ _ st req _ w Hreq Hdo) as Hw.
  pose proof (doGet_sent c ctx "/defi/multi_price" (batchParams batch) st) as Hsent.
  rewrite Hread, Hs in Hval. rewrite Hreq in Hsent. simpl in Hval.
  unfold fetchBatch.
  destruct (doGet _ _ _ _ _) as [r st1]. simpl in *. subst r.
  exists st1. by rewrite (parseResponse_success body env).
Qed.

Lemma fetchBatch_ok_request c ctx batch st m st1 :
  fetchBatch c ctx batch st = (Ok m, st1) ->
  exists req, batchRequest c ctx batch = Ok req.
Proof.
  unfold fetchBatch, batchRequest, doGet. intros H.
  destruct (buildRequest _ _ _ _) as [req | e]; [by eexists |].
  simpl in H. discriminate.
Qed.

Lemma batchRequest_URL c ctx batch req :
  batchRequest c ctx batch = Ok req ->
  req_URL req
  = (client_baseURL c +:+ "/defi/multi_price") +:+ "?"
      +:+ url_Values_Encode {[ "list_address" := [String.concat "," batch] ]}.
Proof.
  unfold batchRequest, buildRequest, http_NewRequestWithContext.
  destruct (http_NewRequest_check _ _); [discriminate |].
  intros [= <-]. simpl. unfold requestURL, batchParams, Values_Set.
  rewrite insert_empty, map_size_singleton. reflexivity.
Qed.

Lemma succeed_sent c ctx batches st maps st' :
  succeed c ctx batches st maps st' ->
  exists reqs,
    Forall2 (fun batch req => batchRequest c ctx batch = Ok req) batches reqs /\
    sent st' = (sent st ++ reqs)%list.
Proof.
  induction 1 as [st | batch rest st m st1 maps st2 Hfetch _ (reqs & Hreqs & Hsent)].
  - exists []. split; [constructor | by rewrite app_nil_r].
  - destruct (fetchBatch_ok_request _ _ _ _ _ _ Hfetch) as [req Hreq].
    apply fetchBatch_sent in Hfetch. rewrite Hreq in Hfetch.
    exists (req :: reqs). split; [by constructor |].
    rewrite Hsent, Hfetch. by rewrite <- app_assoc.
Qed.

(** Chunks whose requests are all answered with a decodable 200 succeed. *)
Lemma succeed_when_answered c ctx batches reqs :
  Forall2 (fun batch req => batchRequest c ctx batch = Ok req) batches reqs ->
  forall st maps w',
    answered (client_httpClient c) reqs (world st) maps w' ->
    exists st', succeed c ctx batches st maps st' /\ world st' = w'.
Proof.
  induction 1 as [| batch req batches reqs Hreq _ IH]; intros st maps w' Hans.
  - inversion Hans; subst. exists st. split; [constructor | done].
  - inversion Hans as [| ? ? ? resp w1 body env maps' ? Hdo Hs Hread Hdec Hok Hrest];
      subst.
    destruct (fetchBatch_served c ctx batch st req resp w1 body env
                Hreq Hdo Hs Hread Hdec Hok) as (st1 & Hfetch & Hw & _).
    rewrite <- Hw in Hrest. destruct (IH st1 maps' w' Hrest) as (st' & Hrun & Hw').
    exists st'. split; [by econstructor | done].
Qed.

End Batching.

Lemma mergeAll_nil {V} : mergeAll (V := V) [] = ∅.
Proof. reflexivity. Qed.

Lemma mergeAll_snoc {V} (maps : list (gmap string V)) (m : gmap string V) :
  mergeAll (maps ++ [m]) = m ∪ mergeAll maps.
Proof. unfold mergeAll. by rewrite fold_left_app. Qed.

(** Last write wins: a key of the latest map has the value it has there; any
    other key has the value it had before. *)
Lemma mergeAll_last {V} (maps : list (gmap string V)) (m : gmap string V) k :
  mergeAll (maps ++ [m]) !! k
  = match m !! k with
    | Some v => Some v
    | None => mergeAll maps !! k
    end.
Proof.
  rewrite mergeAll_snoc, lookup_union. destruct (m !! k) as [v |] eqn:Hk.
  - by destruct (mergeAll maps !! k).
  - by rewrite (left_id_L None _).
Qed.

Section BatchTheorems.
Context `{P : Platform} {UPrices : Unmarshal (gmap string decimal)}.

(** C2. Let [maps] be the decoded per-chunk maps of a list of N non-empty
    keys: each chunk in turn is fetched and decoded without error. Then
    [GetMultiplePrices] hands exactly [ceil (N / 100)] requests to the HTTP
    client, one per chunk and in chunk order; the chunks are consecutive
    runs of at most 100 keys that together make up the list, and the URL of
    each request carries its chunk joined with commas as the one query
    parameter [list_address]. The map returned is the union of [maps] taken
    in that order, a later map winning on a key it shares with an earlier
    one. A list of 150 keys has the two chunks of its first 100 and its last
    50 keys. A list of no keys gives the empty map, no request and no
    error. *)
Theorem GetMultiplePrices_chunked (c : Client) (ctx : Context)
    (keys : list string) (st st' : State)
    (maps : list (gmap string decimal)) :
  Forall (fun k => k <> "") keys ->
  succeed c ctx (chunksOf keys) st maps st' ->
  (length (chunksOf keys) = ((length keys + 99) / 100)%nat /\
   concat (chunksOf keys) = keys /\
   Forall (fun ch => (0 < length ch <= 100)%nat) (chunksOf keys)) /\
  (length keys = 150%nat ->
     chunksOf keys = [take 100 keys; drop 100 keys] /\
     length (take 100 keys) = 100%nat /\ length (drop 100 keys) = 50%nat) /\
  (length keys = 0%nat -> GetMultiplePrices c ctx keys st = (Ok ∅, st)) /\
  (forall (ms : list (gmap string decimal)) m k,
     mergeAll (ms ++ [m]) !! k
     = match m !! k with Some v => Some v | None => mergeAll ms !! k end) /\
  exists reqs,
    (GetMultiplePrices c ctx keys st).1 = Ok (mergeAll maps) /\
    sent (GetMultiplePrices c ctx keys st).2 = (sent st ++ reqs)%list /\
    length reqs = ((length keys + 99) / 100)%nat /\
    Forall2 (fun ch req =>
               batchRequest c ctx ch = Ok req /\
               req_URL req
               = (client_baseURL c +:+ "/defi/multi_price") +:+ "?"
                   +:+ url_Values_Encode
                         {[ "list_address" := [String.concat "," ch] ]})
            (chunksOf keys) reqs.
Proof.
  intros Hkeys Hrun.
  assert (length (chunksOf keys) = ((length keys + 99) / 100)%nat) as Hlen.
  { unfold chunksOf. rewrite chunksFrom_length, Nat.sub_0_r. reflexivity. }
  split; [| split; [| split; [| split]]].
  - split; [done |]. split.
    + unfold chunksOf. by rewrite chunksFrom_concat.
    + apply chunksFrom_sizes.
  - intros H150. split; [by apply chunksOf_150 |].
    rewrite length_take, length_drop. lia.
  - intros H0. unfold GetMultiplePrices.
    by destruct (decide (length keys = 0%nat)).
  - intros ms m k. apply mergeAll_last.
  - destruct (succeed_sent _ _ _ _ _ _ Hrun) as (reqs & Hreqs & Hsent).
    exists reqs.
    assert (length reqs = ((length keys + 99) / 100)%nat) as Hn.
    { rewrite <- Hlen. symmetry. by eapply Forall2_length. }
    assert (Forall2 (fun ch req =>
               batchRequest c ctx ch = Ok req /\
               req_URL req
               = (client_baseURL c +:+ "/defi/multi_price") +:+ "?"
                   +:+ url_Values_Encode
                         {[ "list_address" := [String.concat "," ch] ]})
            (chunksOf keys) reqs) as Hurls.
    { eapply Forall2_impl; [exact Hreqs |]. intros ch req Hreq.
      split; [done | by apply (batchRequest_URL c ctx)]. }
    destruct keys as [| k keys'].
    + inversion Hrun; subst. simpl in *. repeat split; try done.
    + rewrite GetMultiplePrices_valid by done.
      rewrite (runBatches_succeed _ _ _ _ _ _ Hrun). simpl.
      repeat split; done.
Qed.

(** C6. [GetMultiplePrices] is all or nothing: when the chunks before some
    chunk are fetched and decoded without error (whatever maps they gave)
    and that chunk's request fails, or its body fails to decode, with error
    [e], the call returns [e] and no map, in the state that failing chunk
    left: nothing of the earlier chunks is returned and no later chunk is
    requested. *)
Theorem GetMultiplePrices_all_or_nothing (c : Client) (ctx : Context)
    (keys : list string) (st st1 st2 : State)
    (pre post : list (list string)) (batch : list string)
    (maps : list (gmap string decimal)) (e : error) :
  Forall (fun k => k <> "") keys ->
  chunksOf keys = (pre ++ batch :: post)%list ->
  succeed c ctx pre st maps st1 ->
  doGet c ctx "/defi/multi_price" (batchParams batch) st1 = (Err e, st2)
  \/ (exists body,
        doGet c ctx "/defi/multi_price" (batchParams batch) st1 = (Ok body, st2)
        /\ parseResponse (T := gmap string decimal) body = Err e) ->
  GetMultiplePrices c ctx keys st = (Err e, st2).
Proof.
  intros Hkeys Hchunks Hpre Hfail.
  assert (fetchBatch c ctx batch st1 = (Err e, st2)) as Hfetch.
  { unfold fetchBatch. destruct Hfail as [-> | (body & -> & ->)]; reflexivity. }
  assert (keys <> []) as Hne.
  { intros ->. by destruct pre. }
  rewrite GetMultiplePrices_valid by done. rewrite Hchunks.
  by rewrite (runBatches_abort _ _ _ _ _ _ Hpre _ _ _ _ _ Hfetch).
Qed.

(** C5. A key list that contains an empty string makes [GetMultiplePrices]
    fail with the caller-input error (an [APIError] of status 400,
    "address list contains empty string") and leaves the state as it was,
    wherever the empty key stands in the list: no request is built or sent,
    nothing is logged. *)
Theorem GetMultiplePrices_empty_key (c : Client) (ctx : Context)
    (keys : list string) (st : State) :
  "" ∈ keys ->
  GetMultiplePrices c ctx keys st
  = (Err (apiError {| StatusCode := 400;
                      Message := "address list contains empty string";
                      Path := "/defi/multi_price" |}), st)
  /\ sent (GetMultiplePrices c ctx keys st).2 = sent st.
Proof.
  intros Hin.
  assert (GetMultiplePrices c ctx keys st
          = (Err (apiError {| StatusCode := 400;
                      Message := "address list contains empty string";
                      Path := "/defi/multi_price" |}), st)) as ->; [| done].
  unfold GetMultiplePrices.
  destruct (decide (length keys = 0%nat)) as [H0 | _].
  { destruct keys; [by apply elem_of_nil in Hin | done]. }
  by rewrite some_empty_key.
Qed.

End BatchTheorems.

Lemma GetMultiplePrices_chunked_witness :
  exists reqs,
    (GetMultiplePrices (P := scripted) (UPrices := examplePrices)
       exampleClient background (replicate 150 "a")
       (exampleState [okResponse "x"; okResponse "y"])).1
    = Ok (mergeAll [{[ "x" := 1 ]}; {[ "y" := 1 ]}]) /\
    sent (GetMultiplePrices (P := scripted) (UPrices := examplePrices)
            exampleClient background (replicate 150 "a")
            (exampleState [okResponse "x"; okResponse "y"])).2
    = ([] ++ reqs)%list /\
    length reqs = ((150 + 99) / 100)%nat /\
    Forall2 (fun ch req =>
               batchRequest (P := scripted) exampleClient background ch = Ok req /\
               req_URL req
               = (DefaultBaseURL +:+ "/defi/multi_price") +:+ "?"
                   +:+ url_Values_Encode
                         {[ "list_address" := [String.concat "," ch] ]})
            (chunksOf (replicate 150 "a")) reqs.
Proof.
  refine (proj2 (proj2 (proj2 (proj2
    (GetMultiplePrices_chunked (P := scripted) (UPrices := examplePrices)
       exampleClient background (replicate 150 "a")
       (exampleState [okResponse "x"; okResponse "y"]) _
       [{[ "x" := 1 ]}; {[ "y" := 1 ]}] _ _))))).
  - apply Forall_replicate. discriminate.
  - rewrite chunksOf_150 by reflexivity.
    eapply succeed_cons; [vm_compute; reflexivity |].
    eapply succeed_cons; [vm_compute; reflexivity |].
    apply succeed_nil.
Defined.

Lemma GetMultiplePrices_empty_key_witness :
  GetMultiplePrices (P := scripted) (UPrices := examplePrices) exampleClient background
    ["a"; ""; "c"] (exampleState [okResponse "x"])
  = (Err (apiError {| StatusCode := 400;
                      Message := "address list contains empty string";
                      Path := "/defi/multi_price" |}),
     exampleState [okResponse "x"])
  /\ sent (GetMultiplePrices (P := scripted) (UPrices := examplePrices) exampleClient background
             ["a"; ""; "c"] (exampleState [okResponse "x"])).2
     = [].
Proof.
  apply (GetMultiplePrices_empty_key (P := scripted) (UPrices := examplePrices)).
  set_solver.
Defined.

Lemma GetMultiplePrices_all_or_nothing_witness :
  (GetMultiplePrices (P := scripted) (UPrices := examplePrices) exampleClient background
     (replicate 101 "a")
     (exampleState [okResponse "x"; errorResponse 500 "down"])).1
  = Err (apiError {| StatusCode := 500; Message := "down";
                     Path := "/defi/multi_price" |}).
Proof.
  erewrite (GetMultiplePrices_all_or_nothing (P := scripted)
              (UPrices := examplePrices) exampleClient background
              (replicate 101 "a")
              (exampleState [okResponse "x"; errorResponse 500 "down"])
              _ _ [replicate 100 "a"] [] ["a"] [{[ "x" := 1 ]}]).
  - reflexivity.
  - apply Forall_replicate. discriminate.
  - vm_compute. reflexivity.
  - eapply succeed_cons; [vm_compute; reflexivity | apply succeed_nil].
  - left. vm_compute. reflexivity.
Defined.

(** [TestGetMultiplePrices_EmptyList]: the empty map, nothing sent. *)
Example TestGetMultiplePrices_EmptyList :
  GetMultiplePrices (P := scripted) (UPrices := examplePrices)
    exampleClient background [] (exampleState [])
  = (Ok ∅, exampleState []).
Proof. reflexivity. Qed.

(** A key shared by two chunks keeps the price of the later chunk. *)
Example later_chunk_wins :
  mergeAll [({[ "a" := 1; "b" := 2 ]} : gmap string Z); {[ "b" := 3 ]}]
  = {[ "a" := 1; "b" := 3 ]}.
Proof. by vm_compute. Qed.

(** * Further properties *)

(** ** More on errors.go *)

Lemma errors_As_wrapAll prefixes err :
  errors_As_APIError (wrapAll prefixes err) = errors_As_APIError err.
Proof. induction prefixes as [| p ps IH]; [reflexivity | exact IH]. Qed.

(** X1. [IsAPIError] looks through wrapping: wrapping an error with
    [fmt.Errorf] and [%w] does not change what [IsAPIError] answers; an
    [APIError] under any number of such wrappers is found and returned; an
    error made by [errors.New], however often wrapped, is not one. *)
Theorem IsAPIError_through_wrapping :
  (forall prefix err,
     IsAPIError (Some (fmt_Errorf_w prefix err)) = IsAPIError (Some err)) /\
  (forall prefixes e,
     IsAPIError (Some (wrapAll prefixes (apiError e))) = (Some e, true)) /\
  (forall prefixes s,
     IsAPIError (Some (wrapAll prefixes (errors_New s))) = (None, false)).
Proof.
  split; [| split].
  - reflexivity.
  - intros prefixes e. unfold IsAPIError. by rewrite errors_As_wrapAll.
  - intros prefixes s. unfold IsAPIError. by rewrite errors_As_wrapAll.
Qed.

(** X2. No [APIError] is both a client and a server error; a server error
    is neither "not found" nor "rate limited"; an [APIError] whose status is
    below 400 satisfies none of the four predicates; from 400 on, it is a
    client error exactly when it is not a server error. *)
Theorem status_classes (e : APIError) :
  (IsClientError e = true -> IsServerError e = false) /\
  (IsServerError e = true ->
     IsClientError e = false /\ IsNotFound e = false /\
     IsRateLimited e = false) /\
  (StatusCode e < 400 ->
     IsClientError e = false /\ IsServerError e = false /\
     IsNotFound e = false /\ IsRateLimited e = false) /\
  (400 <= StatusCode e -> IsClientError e = negb (IsServerError e)).
Proof.
  unfold IsClientError, IsServerError, IsNotFound, IsRateLimited,
    StatusNotFound, StatusTooManyRequests.
  repeat split; intros; try rewrite negb_true_iff in *;
    repeat match goal with
           | |- context [?a =? ?b] => destruct (Z.eqb_spec a b)
           | |- context [?a >=? ?b] => destruct (Z.geb_spec a b)
           | |- context [?a <? ?b] => destruct (Z.ltb_spec a b)
           | H : context [?a >=? ?b] |- _ => destruct (Z.geb_spec a b)
           | H : context [?a <? ?b] |- _ => destruct (Z.ltb_spec a b)
           end; simpl in *; try done; lia.
Qed.

(** ** truncateForLog *)

Lemma string_length_app (s1 s2 : string) :
  String.length (s1 +:+ s2) = (String.length s1 + String.length s2)%nat.
Proof. induction s1 as [| a s1 IH]; simpl; [done | by rewrite IH]. Qed.

Lemma substring_0_length (n : nat) (s : string) :
  String.length (substring 0 n s) = (n `min` String.length s)%nat.
Proof.
  revert n. induction s as [| a s IH]; intros [| n]; simpl; try done.
  by rewrite IH.
Qed.

Lemma substring_0_app (n : nat) (s t : string) :
  (n <= String.length s)%nat -> substring 0 n (s +:+ t) = substring 0 n s.
Proof.
  revert n. induction s as [| a s IH]; intros [| n] H; simpl in *; try done.
  - by destruct t.
  - lia.
  - rewrite IH; [done | lia].
Qed.

Lemma substring_0_idem (n : nat) (s : string) :
  substring 0 n (substring 0 n s) = substring 0 n s.
Proof.
  revert n. induction s as [| a s IH]; intros [| n]; simpl; try done.
  by rewrite IH.
Qed.

(** X3. [truncateForLog] returns a string of at most [maxLen] bytes
    unchanged; a longer one is cut to its first [maxLen] bytes followed by
    the 14-byte marker "...(truncated)". The result is never longer than
    [maxLen + 14] bytes, and its first [maxLen] bytes are those of the
    input. *)
Theorem truncateForLog_bounds (s : string) (maxLen : nat) :
  ((String.length s <= maxLen)%nat -> truncateForLog s maxLen = s) /\
  ((maxLen < String.length s)%nat ->
     truncateForLog s maxLen = substring 0 maxLen s +:+ "...(truncated)" /\
     String.length (truncateForLog s maxLen) = (maxLen + 14)%nat) /\
  (String.length (truncateForLog s maxLen) <= maxLen + 14)%nat /\
  substring 0 maxLen (truncateForLog s maxLen) = substring 0 maxLen s.
Proof.
  unfold truncateForLog.
  destruct (Nat.leb_spec (String.length s) maxLen) as [Hle | Hlt].
  - repeat split; try done; lia.
  - assert (String.length (substring 0 maxLen s +:+ "...(truncated)")
            = (maxLen + 14)%nat) as Hlen.
    { rewrite string_length_app, substring_0_length. simpl. lia. }
    repeat split; try done; try lia.
    rewrite substring_0_app; [apply substring_0_idem |].
    rewrite substring_0_length. lia.
Qed.

(** ** More on the transport *)

Section TransportExtras.
Context `{P : Platform}.

Lemma requestURL_cases c path params :
  (params = ∅ -> requestURL c path params = client_baseURL c +:+ path) /\
  (params <> ∅ ->
     requestURL c path params
     = (client_baseURL c +:+ path) +:+ "?" +:+ url_Values_Encode params).
Proof.
  unfold requestURL. split.
  - intros ->. by rewrite map_size_empty.
  - intros Hne. rewrite bool_decide_eq_true_2; [done |].
    destruct (decide (size params = 0%nat)) as [H0 | H0]; [| lia].
    by apply map_size_empty_iff in H0.
Qed.

(** Everything [doGet] leaves once the HTTP client has returned. *)
Lemma doGet_returned c ctx path params st req r w :
  buildRequest c ctx path params = Ok req ->
  HTTPClient_Do (client_httpClient c) req (world st) = (r, w) ->
  exists st1,
    doGet c ctx path params st = ((doGet c ctx path params st).1, st1) /\
    world st1 = w /\ sent st1 = (sent st ++ [req])%list.
Proof.
  intros Hreq Hdo.
  pose proof (doGet_world c ctx path params st req r w Hreq Hdo) as Hw.
  pose proof (doGet_sent c ctx path params st) as Hs. rewrite Hreq in Hs.
  destruct (doGet c ctx path params st) as [v st1]. by exists st1.
Qed.

(** X4. The request [doGet] hands to the HTTP client is a GET under the
    caller's context. Its URL is the base URL followed by the path, and by
    "?" and the encoded parameters exactly when there are parameters. Its
    header holds the chain identifier "solana", [Accept: application/json]
    and the client's API key (each under its canonical key, the three keys
    being distinct), and nothing else. *)
Theorem doGet_request_shape (c : Client) (ctx : Context) (path : string)
    (params : Values) (req : Request) :
  buildRequest c ctx path params = Ok req ->
  (forall st, sent (doGet c ctx path params st).2 = (sent st ++ [req])%list) /\
  req_Method req = "GET" /\ req_ctx req = ctx /\
  (params = ∅ -> req_URL req = client_baseURL c +:+ path) /\
  (params <> ∅ ->
     req_URL req
     = (client_baseURL c +:+ path) +:+ "?" +:+ url_Values_Encode params) /\
  req_Header req !! textproto_CanonicalMIMEHeaderKey "x-chain"
  = Some ["solana"] /\
  (textproto_CanonicalMIMEHeaderKey "Accept"
   <> textproto_CanonicalMIMEHeaderKey "x-chain" ->
   req_Header req !! textproto_CanonicalMIMEHeaderKey "Accept"
   = Some ["application/json"]) /\
  (textproto_CanonicalMIMEHeaderKey "X-API-KEY"
   <> textproto_CanonicalMIMEHeaderKey "Accept" ->
   textproto_CanonicalMIMEHeaderKey "X-API-KEY"
   <> textproto_CanonicalMIMEHeaderKey "x-chain" ->
   req_Header req !! textproto_CanonicalMIMEHeaderKey "X-API-KEY"
   = Some [client_apiKey c]) /\
  (forall k,
     is_Some (req_Header req !! k) ->
     k = textproto_CanonicalMIMEHeaderKey "X-API-KEY" \/
     k = textproto_CanonicalMIMEHeaderKey "Accept" \/
     k = textproto_CanonicalMIMEHeaderKey "x-chain").
Proof.
  intros Hreq.
  split.
  { intros st. rewrite doGet_sent. by rewrite Hreq. }
  unfold buildRequest, http_NewRequestWithContext in Hreq.
  destruct (http_NewRequest_check _ _); [discriminate |].
  injection Hreq as <-. simpl. unfold chainSolana.
  destruct (requestURL_cases c path params) as [Hempty Hsome].
  repeat split; try done.
  - apply lookup_insert_eq.
  - intros Hne. rewrite lookup_insert_ne by done. apply lookup_insert_eq.
  - intros Hne1 Hne2. rewrite !lookup_insert_ne by done. apply lookup_insert_eq.
  - intros k Hk.
    destruct (decide (k = textproto_CanonicalMIMEHeaderKey "x-chain")) as [-> | H1];
      [by right; right |].
    destruct (decide (k = textproto_CanonicalMIMEHeaderKey "Accept")) as [-> | H2];
      [by right; left |].
    destruct (decide (k = textproto_CanonicalMIMEHeaderKey "X-API-KEY")) as [-> | H3];
      [by left |].
    rewrite !lookup_insert_ne, lookup_empty in Hk by done. by destruct Hk.
Qed.

(** X5. Whatever the outcome, [doGet] hands the HTTP client exactly one
    request when the request can be created. When it cannot, [doGet]
    returns that error wrapped under "create request: " and leaves the state
    untouched: nothing is sent and nothing is logged. *)
Theorem doGet_request_count (c : Client) (ctx : Context) (path : string)
    (params : Values) (st : State) :
  (exists req,
     buildRequest c ctx path params = Ok req /\
     sent (doGet c ctx path params st).2 = (sent st ++ [req])%list) \/
  (exists e,
     http_NewRequest_check "GET" (requestURL c path params) = Some e /\
     doGet c ctx path params st
     = (Err (wrapError ("create request: " +:+ error_Error e) e), st)).
Proof.
  pose proof (doGet_sent c ctx path params st) as Hs.
  destruct (buildRequest c ctx path params) as [req | e] eqn:Hreq.
  - left. by exists req.
  - right. exists e. split.
    + unfold buildRequest, http_NewRequestWithContext, MethodGet in Hreq.
      destruct (http_NewRequest_check _ _); [by injection Hreq as -> | done].
    + by apply doGet_not_created.
Qed.

(** X6. When the HTTP client fails to execute the request, [doGet]
    returns its error wrapped under "execute request: ": the text is
    prefixed, and [IsAPIError] answers on the result what it answers on the
    client's error. The request still counts as sent. *)
Theorem doGet_execute_failure (c : Client) (ctx : Context) (path : string)
    (params : Values) (st : State) (req : Request) (e : error) (w : World) :
  buildRequest c ctx path params = Ok req ->
  HTTPClient_Do (client_httpClient c) req (world st) = (Err e, w) ->
  exists err,
    (doGet c ctx path params st).1 = Err err /\
    err = wrapError ("execute request: " +:+ error_Error e) e /\
    error_Error err = "execute request: " +:+ error_Error e /\
    IsAPIError (Some err) = IsAPIError (Some e) /\
    world (doGet c ctx path params st).2 = w /\
    sent (doGet c ctx path params st).2 = (sent st ++ [req])%list.
Proof.
  intros Hreq Hdo. eexists. split; [by eapply doGet_not_executed |].
  repeat split.
  - by eapply doGet_world.
  - rewrite doGet_sent. by rewrite Hreq.
Qed.

(** X7. When reading the response body fails, [doGet] returns the read
    error wrapped under "read response body: ", whatever the status of the
    response (200 included) and whatever was read before the failure; it
    does not build an [APIError] of its own. *)
Theorem doGet_read_failure (c : Client) (ctx : Context) (path : string)
    (params : Values) (st : State) (req : Request) (resp : Response)
    (w : World) (partial : list byte) (e : error) :
  buildRequest c ctx path params = Ok req ->
  HTTPClient_Do (client_httpClient c) req (world st) = (Ok resp, w) ->
  io_ReadAll (http_Body resp) = (partial, Some e) ->
  exists err,
    (doGet c ctx path params st).1 = Err err /\
    err = wrapError ("read response body: " +:+ error_Error e) e /\
    IsAPIError (Some err) = IsAPIError (Some e) /\
    sent (doGet c ctx path params st).2 = (sent st ++ [req])%list.
Proof.
  intros Hreq Hdo Hread. eexists. split.
  - rewrite (doGet_answered c ctx path params st req resp w Hreq Hdo).
    by rewrite Hread.
  - repeat split. rewrite doGet_sent. by rewrite Hreq.
Qed.


(** With the no-op logger [doGet] leaves the log sink alone. *)
Lemma doGet_silent c ctx path params st :
  client_logger c = noopLogger ->
  logsink (doGet c ctx path params st).2 = logsink st.
Proof.
  intros Hlog. unfold doGet.
  destruct (buildRequest c ctx path params) as [req | e]; [| done].
  unfold bind, ret, logWith, httpClient_Do. rewrite Hlog. simpl.
  destruct (HTTPClient_Do _ _ _) as [[resp | e] w]; simpl; [| done].
  destruct (io_ReadAll (http_Body resp)) as [body [e |]]; simpl.
  - destruct (Close (http_Body resp)); done.
  - destruct (negb _); simpl; destruct (Close (http_Body resp)); done.
Qed.

End TransportExtras.

(** ** More on decoding *)

Section DecodingExtras.
Context {T : Type} {U : Unmarshal T}.

(** X21. [parseResponse] succeeds exactly when the body decodes to an
    envelope whose [success] is true, and then returns the envelope's data
    and nothing else: the message plays no part. *)
Theorem parseResponse_ok_iff (body : list byte) (data : T) :
  parseResponse body = Ok data <->
  exists env,
    json_Unmarshal body = Ok env /\ env_Success env = true /\
    env_Data env = data.
Proof.
  unfold parseResponse. split.
  - destruct (json_Unmarshal body) as [env | e]; [| discriminate].
    destruct (env_Success env) eqn:Hs; simpl.
    + intros [= <-]. by exists env.
    + by destruct (negb _).
  - intros (env & -> & -> & <-). reflexivity.
Qed.

(** X9. When the body does not decode, [parseResponse] returns the
    decoder's error wrapped under "unmarshal response: "; [IsAPIError]
    answers on it what it answers on the decoder's error. *)
Theorem parseResponse_malformed_wrapped (body : list byte) (e : error) :
  json_Unmarshal body = Err e ->
  exists err,
    parseResponse body = Err err /\
    err = wrapError ("unmarshal response: " +:+ error_Error e) e /\
    error_Error err = "unmarshal response: " +:+ error_Error e /\
    IsAPIError (Some err) = IsAPIError (Some e).
Proof.
  intros H. eexists. split; [by apply parseResponse_malformed |].
  repeat split.
Qed.

End DecodingExtras.

(** ** More on the lookups *)

Section LookupExtras.
Context `{P : Platform} {UPriceData : Unmarshal PriceData}
  {UTokenOverview : Unmarshal TokenOverview}
  {UTokenSecurity : Unmarshal TokenSecurity}.

Lemma addressParams_URL c path address :
  requestURL c path (addressParams address)
  = (client_baseURL c +:+ path) +:+ "?"
      +:+ url_Values_Encode {[ "address" := [address] ]}.
Proof.
  unfold requestURL, addressParams, Values_Set.
  by rewrite insert_empty, map_size_singleton.
Qed.

Lemma buildRequest_URL c ctx path params req :
  buildRequest c ctx path params = Ok req ->
  req_URL req = requestURL c path params.
Proof.
  unfold buildRequest, http_NewRequestWithContext.
  destruct (http_NewRequest_check _ _); [discriminate |]. by intros [= <-].
Qed.

(** What a lookup makes of an answered request: shared by the three
    single-token lookups. *)
Ltac lookup_outcomes unfold_lookup Haddr Hreq Hdo Hread :=
  let st1 := fresh "st1" in
  let Hget := fresh "Hget" in
  let Hw := fresh "Hw" in
  let Hs := fresh "Hs" in
  let Hval := fresh "Hval" in
  split; [erewrite buildRequest_URL by exact Hreq; apply addressParams_URL |];
  destruct (doGet_returned _ _ _ _ _ _ _ _ Hreq Hdo) as (st1 & Hget & Hw & Hs);
  pose proof (doGet_answered _ _ _ _ _ _ _ _ Hreq Hdo) as Hval;
  rewrite Hread in Hval;
  unfold_lookup; unfold bind, ret, logWith;
  rewrite (proj2 (String.eqb_neq _ _) Haddr);
  rewrite Hget, Hval;
  match goal with
  | |- context [http_StatusCode ?r =? 200] =>
      destruct (Z.eqb_spec (http_StatusCode r) 200)
  end;
    [ destruct (parseResponse _); simpl; repeat split; done
    | simpl; repeat split; done ].

(** X14. [GetPrice] with a non-empty address, once its request is answered
    with a response the HTTP client hands back (any response of a
    caller-built client; on the retrying client any status but 429 and
    those of 500 or more) and the body is read: the request sent is the one
    for [/defi/price] with the address as the only query parameter; a 200 gives
    exactly what [parseResponse] makes of the body; any other such status
    gives the [APIError] with that status, the body as message and the path
    [/defi/price]. The network is left as the HTTP client left it. *)
Theorem GetPrice_outcomes (c : Client) (ctx : Context) (address : string)
    (st : State) (req : Request) (resp : Response) (w : World)
    (body : list byte) :
  address <> "" ->
  buildRequest c ctx "/defi/price" (addressParams address) = Ok req ->
  HTTPClient_Do (client_httpClient c) req (world st) = (Ok resp, w) ->
  io_ReadAll (http_Body resp) = (body, None) ->
  handedBack c resp ->
  req_URL req
  = (client_baseURL c +:+ "/defi/price") +:+ "?"
      +:+ url_Values_Encode {[ "address" := [address] ]} /\
  sent (GetPrice c ctx address st).2 = (sent st ++ [req])%list /\
  world (GetPrice c ctx address st).2 = w /\
  (http_StatusCode resp = 200 ->
     (GetPrice c ctx address st).1 = parseResponse body) /\
  (http_StatusCode resp <> 200 ->
     (GetPrice c ctx address st).1
     = Err (apiError {| StatusCode := http_StatusCode resp;
                        Message := string_of_list_byte body;
                        Path := "/defi/price" |})).
Proof.
  intros Haddr Hreq Hdo Hread _. lookup_outcomes ltac:(unfold GetPrice) Haddr Hreq Hdo Hread.
Qed.

(** X15. [GetTokenOverview] with a non-empty address, once its request is answered
    with a response the HTTP client hands back (any response of a
    caller-built client; on the retrying client any status but 429 and
    those of 500 or more) and the body is read: the request sent is the one
    for [/defi/token_overview] with the address as the only query parameter; a 200 gives
    exactly what [parseResponse] makes of the body; any other such status
    gives the [APIError] with that status, the body as message and the path
    [/defi/token_overview]. The network is left as the HTTP client left it. *)
Theorem GetTokenOverview_outcomes (c : Client) (ctx : Context)
    (address : string) (st : State) (req : Request) (resp : Response)
    (w : World) (body : list byte) :
  address <> "" ->
  buildRequest c ctx "/defi/token_overview" (addressParams address) = Ok req ->
  HTTPClient_Do (client_httpClient c) req (world st) = (Ok resp, w) ->
  io_ReadAll (http_Body resp) = (body, None) ->
  handedBack c resp ->
  req_URL req
  = (client_baseURL c +:+ "/defi/token_overview") +:+ "?"
      +:+ url_Values_Encode {[ "address" := [address] ]} /\
  sent (GetTokenOverview c ctx address st).2 = (sent st ++ [req])%list /\
  world (GetTokenOverview c ctx address st).2 = w /\
  (http_StatusCode resp = 200 ->
     (GetTokenOverview c ctx address st).1 = parseResponse body) /\
  (http_StatusCode resp <> 200 ->
     (GetTokenOverview c ctx address st).1
     = Err (apiError {| StatusCode := http_StatusCode resp;
                        Message := string_of_list_byte body;
                        Path := "/defi/token_overview" |})).
Proof.
  intros Haddr Hreq Hdo Hread _.
  lookup_outcomes ltac:(unfold GetTokenOverview) Haddr Hreq Hdo Hread.
Qed.

(** X16. [GetTokenSecurity] with a non-empty address, once its request is answered
    with a response the HTTP client hands back (any response of a
    caller-built client; on the retrying client any status but 429 and
    those of 500 or more) and the body is read: the request sent is the one
    for [/defi/token_security] with the address as the only query parameter; a 200 gives
    exactly what [parseResponse] makes of the body; any other such status
    gives the [APIError] with that status, the body as message and the path
    [/defi/token_security]. The network is left as the HTTP client left it. *)
Theorem GetTokenSecurity_outcomes (c : Client) (ctx : Context)
    (address : string) (st : State) (req : Request) (resp : Response)
    (w : World) (body : list byte) :
  address <> "" ->
  buildRequest c ctx "/defi/token_security" (addressParams address) = Ok req ->
  HTTPClient_Do (client_httpClient c) req (world st) = (Ok resp, w) ->
  io_ReadAll (http_Body resp) = (body, None) ->
  handedBack c resp ->
  req_URL req
  = (client_baseURL c +:+ "/defi/token_security") +:+ "?"
      +:+ url_Values_Encode {[ "address" := [address] ]} /\
  sent (GetTokenSecurity c ctx address st).2 = (sent st ++ [req])%list /\
  world (GetTokenSecurity c ctx address st).2 = w /\
  (http_StatusCode resp = 200 ->
     (GetTokenSecurity c ctx address st).1 = parseResponse body) /\
  (http_StatusCode resp <> 200 ->
     (GetTokenSecurity c ctx address st).1
     = Err (apiError {| StatusCode := http_StatusCode resp;
                        Message := string_of_list_byte body;
                        Path := "/defi/token_security" |})).
Proof.
  intros Haddr Hreq Hdo Hread _.
  lookup_outcomes ltac:(unfold GetTokenSecurity) Haddr Hreq Hdo Hread.
Qed.

(** X17. [HasMintAuthority] and [HasFreezeAuthority] hold exactly when the
    authority is present (a non-nil pointer) and is not the empty string: an
    authority of "" counts as none. *)
Theorem authority_present_iff (ts : TokenSecurity) :
  (HasMintAuthority ts = true <->
     exists a, MintAuthority ts = Some a /\ a <> "") /\
  (HasFreezeAuthority ts = true <->
     exists a, FreezeAuthority ts = Some a /\ a <> "").
Proof.
  unfold HasMintAuthority, HasFreezeAuthority. split.
  - destruct (MintAuthority ts) as [a |].
    + rewrite negb_true_iff, String.eqb_neq. split; [by exists a |].
      by intros (? & [= <-] & ?).
    + split; [done | by intros (? & ? & ?)].
  - destruct (FreezeAuthority ts) as [a |].
    + rewrite negb_true_iff, String.eqb_neq. split; [by exists a |].
      by intros (? & [= <-] & ?).
    + split; [done | by intros (? & ? & ?)].
Qed.

End LookupExtras.

(** ** More on construction *)

Section ConstructionExtras.
Context `{P : Platform}.

(** X18. [NewClient] fails exactly when the API key is empty: no option
    value makes it fail. A client it returns carries the key, and the base
    URL and logger of the resolved configuration. *)
Theorem NewClient_fails_only_on_empty_key (apiKey : string)
    (opts : list Option) :
  ((exists e, NewClient apiKey opts = Err e) <-> apiKey = "") /\
  (forall c,
     NewClient apiKey opts = Ok c ->
     apiKey <> "" /\ client_apiKey c = apiKey /\
     client_baseURL c = baseURL (resolveConfig opts) /\
     client_logger c = logger (resolveConfig opts)).
Proof.
  unfold NewClient. destruct (decide (apiKey = "")) as [-> | Hne].
  - split; [split; [done | by eexists] | discriminate].
  - split; [split; [by intros [e ?] | done] |]. by intros c [= <-].
Qed.

(** X19. With an HTTP client override, [NewClient] uses that client as it
    is: two option lists that resolve to the same override, base URL and
    logger give the same client, whatever timeout, retry count and retry
    waits they set. *)
Theorem NewClient_override_bypasses_retry (apiKey : string)
    (opts1 opts2 : list Option) (custom : HTTPClient) :
  apiKey <> "" ->
  httpClient (resolveConfig opts1) = Some custom ->
  httpClient (resolveConfig opts2) = Some custom ->
  baseURL (resolveConfig opts1) = baseURL (resolveConfig opts2) ->
  logger (resolveConfig opts1) = logger (resolveConfig opts2) ->
  NewClient apiKey opts1
  = Ok {| client_apiKey := apiKey;
          client_baseURL := baseURL (resolveConfig opts1);
          client_httpClient := custom;
          client_logger := logger (resolveConfig opts1) |} /\
  NewClient apiKey opts1 = NewClient apiKey opts2.
Proof.
  intros Hne H1 H2 Hurl Hlog. rewrite !NewClient_nonempty by done.
  by rewrite H1, H2, Hurl, Hlog.
Qed.

(** X20. Without an override, the retrying client [NewClient] builds
    carries the retry count, the two retry waits and the timeout of the
    resolved configuration, has the library's logging switched off, and
    decides retries with the closure of [NewClient]. *)
Theorem NewClient_retry_settings (apiKey : string) (opts : list Option) :
  apiKey <> "" ->
  httpClient (resolveConfig opts) = None ->
  exists c,
    NewClient apiKey opts = Ok c /\
    client_httpClient c
    = retryableStandardClient
        {| RetryMax := maxRetries (resolveConfig opts);
           RetryWaitMin := retryWaitMin (resolveConfig opts);
           RetryWaitMax := retryWaitMax (resolveConfig opts);
           HTTPClient_Timeout := timeout (resolveConfig opts);
           RetryLogger := None;
           CheckRetry := NewClient_CheckRetry |}.
Proof.
  intros Hne Hnone. rewrite NewClient_nonempty by done. rewrite Hnone.
  eexists. split; reflexivity.
Qed.

End ConstructionExtras.

(** ** More on the batch coordinator *)

Section BatchExtras.
Context `{P : Platform} {UPrices : Unmarshal (gmap string decimal)}.

Lemma runBatches_sent_prefix c ctx batches :
  forall res st,
  exists n reqs,
    (n <= length batches)%nat /\
    Forall2 (fun batch req => batchRequest c ctx batch = Ok req)
            (take n batches) reqs /\
    sent (runBatches c ctx batches res st).2 = (sent st ++ reqs)%list.
Proof.
  induction batches as [| batch rest IH]; intros res st.
  - exists 0%nat, []. simpl. split; [done |]. split; [constructor |].
    by rewrite app_nil_r.
  - simpl. destruct (fetchBatch c ctx batch st) as [[m | e] st1] eqn:Hfetch.
    + destruct (fetchBatch_ok_request _ _ _ _ _ _ Hfetch) as [req Hreq].
      apply fetchBatch_sent in Hfetch. rewrite Hreq in Hfetch.
      destruct (IH (m ∪ res) st1) as (n & reqs & Hn & Hreqs & Hsent).
      exists (S n), (req :: reqs). split; [lia |]. split; [by constructor |].
      rewrite Hsent, Hfetch. by rewrite <- app_assoc.
    + apply fetchBatch_sent in Hfetch. simpl.
      destruct (batchRequest c ctx batch) as [req | e'] eqn:Hreq.
      * exists 1%nat, [req]. split; [lia |]. split; [| done].
        simpl. rewrite take_0. by repeat constructor.
      * exists 0%nat, []. split; [lia |]. split; [constructor | done].
Qed.

(** X11. For every key list and whatever the network does,
    [GetMultiplePrices] sends at most [ceil (N / 100)] requests, and the
    requests it sends are those of the first chunks of the list, in order:
    it never sends a request for a chunk before the requests of all earlier
    chunks, and never one that is not a chunk's. *)
Theorem GetMultiplePrices_request_bound (c : Client) (ctx : Context)
    (keys : list string) (st : State) :
  exists n reqs,
    (n <= (length keys + 99) / 100)%nat /\
    Forall2 (fun batch req => batchRequest c ctx batch = Ok req)
            (take n (chunksOf keys)) reqs /\
    sent (GetMultiplePrices c ctx keys st).2 = (sent st ++ reqs)%list /\
    (length reqs <= (length keys + 99) / 100)%nat.
Proof.
  assert (forall n reqs,
            (n <= length (chunksOf keys))%nat ->
            Forall2 (fun batch req => batchRequest c ctx batch = Ok req)
                    (take n (chunksOf keys)) reqs ->
            (n <= (length keys + 99) / 100)%nat /\
            (length reqs <= (length keys + 99) / 100)%nat) as Hbound.
  { intros n reqs Hn Hreqs. apply Forall2_length in Hreqs.
    rewrite length_take in Hreqs. unfold chunksOf in Hn.
    rewrite chunksFrom_length, Nat.sub_0_r in Hn. unfold chunkCount in Hn.
    lia. }
  unfold GetMultiplePrices.
  destruct (decide (length keys = 0%nat)) as [H0 | Hpos].
  { exists 0%nat, []. simpl. rewrite app_nil_r.
    repeat split; try done; try lia; try constructor. }
  destruct (existsb _ keys).
  { exists 0%nat, []. simpl. rewrite app_nil_r.
    repeat split; try done; try lia; try constructor. }
  unfold bind. rewrite batchLoop_runBatches. fold (chunksOf keys).
  destruct (runBatches_sent_prefix c ctx (chunksOf keys) ∅ st)
    as (n & reqs & Hn & Hreqs & Hsent).
  destruct (Hbound n reqs Hn Hreqs) as [Hn' Hlen].
  exists n, reqs.
  destruct (runBatches c ctx (chunksOf keys) ∅ st) as [[res | e] st1];
    simpl in *; repeat split; done.
Qed.

Lemma mergeAll_lookup_from {V} (maps : list (gmap string V)) :
  forall (res : gmap string V) k,
    fold_left (fun acc m => m ∪ acc) maps res !! k
    = fold_left (fun acc m => match m !! k with Some v => Some v | None => acc end)
                maps (res !! k).
Proof.
  induction maps as [| m maps IH]; intros res k; [reflexivity |].
  simpl. rewrite IH. f_equal. rewrite lookup_union.
  destruct (m !! k), (res !! k); reflexivity.
Qed.

Lemma latest_is_Some {V} (maps : list (gmap string V)) k :
  forall acc : option V,
    is_Some (fold_left (fun acc m => match m !! k with Some v => Some v | None => acc end)
                       maps acc)
    <-> is_Some acc \/ exists m, m ∈ maps /\ is_Some (m !! k).
Proof.
  induction maps as [| m maps IH]; intros acc; simpl.
  - split; [by left | intros [? | (m & Hm & _)]; [done | by apply elem_of_nil in Hm]].
  - rewrite IH. split.
    + intros [Hacc | (m' & Hin & Hk)].
      * destruct (m !! k) as [v |] eqn:Hmk; [| by left].
        right. exists m. split; [by left | by rewrite Hmk].
      * right. exists m'. split; [by right | done].
    + intros [Hacc | (m' & Hin & Hk)].
      * left. by destruct (m !! k).
      * apply elem_of_cons in Hin as [-> | Hin].
        -- left. destruct (m !! k); [done | by destruct Hk].
        -- right. by exists m'.
Qed.

(** X12. When every chunk is fetched and decoded, the map
    [GetMultiplePrices] returns gives each key the value of the latest
    response that has the key; a key is in the result exactly when some
    response has it, so keys the server leaves out are absent and no key is
    made up. *)
Theorem GetMultiplePrices_lookup (c : Client) (ctx : Context)
    (keys : list string) (st st' : State)
    (maps : list (gmap string decimal)) :
  Forall (fun k => k <> "") keys ->
  succeed c ctx (chunksOf keys) st maps st' ->
  exists res,
    (GetMultiplePrices c ctx keys st).1 = Ok res /\
    (forall k, res !! k = latestPrice maps k) /\
    (forall k, is_Some (res !! k) <-> exists m, m ∈ maps /\ is_Some (m !! k)).
Proof.
  intros Hkeys Hrun. exists (mergeAll maps).
  assert (forall k, mergeAll maps !! k = latestPrice maps k) as Hlook.
  { intros k. unfold mergeAll, latestPrice.
    by rewrite mergeAll_lookup_from, lookup_empty. }
  split; [| split; [done |]].
  - destruct keys as [| k keys'].
    + inversion Hrun; subst. reflexivity.
    + rewrite GetMultiplePrices_valid by done.
      by rewrite (runBatches_succeed _ _ _ _ _ _ Hrun).
  - intros k. rewrite Hlook. unfold latestPrice. rewrite latest_is_Some.
    split; [intros [[? [=]] | ?]; done | by right].
Qed.

(** X13. When the chunks before some chunk succeed and that chunk is
    answered with a response the HTTP client hands back (any response of a
    caller-built client; on the retrying client any status but 429 and
    those of 500 or more) whose status is not 200, [GetMultiplePrices]
    returns the [APIError] with that status, the body as message and the
    path [/defi/multi_price], unwrapped; the failing request is the last
    one sent. *)
Theorem GetMultiplePrices_status_error (c : Client) (ctx : Context)
    (keys : list string) (st st1 : State)
    (pre post : list (list string)) (batch : list string)
    (maps : list (gmap string decimal)) (req : Request) (resp : Response)
    (w : World) (body : list byte) :
  Forall (fun k => k <> "") keys ->
  chunksOf keys = (pre ++ batch :: post)%list ->
  succeed c ctx pre st maps st1 ->
  batchRequest c ctx batch = Ok req ->
  HTTPClient_Do (client_httpClient c) req (world st1) = (Ok resp, w) ->
  io_ReadAll (http_Body resp) = (body, None) ->
  http_StatusCode resp <> 200 ->
  handedBack c resp ->
  (GetMultiplePrices c ctx keys st).1
  = Err (apiError {| StatusCode := http_StatusCode resp;
                     Message := string_of_list_byte body;
                     Path := "/defi/multi_price" |}) /\
  sent (GetMultiplePrices c ctx keys st).2 = (sent st1 ++ [req])%list /\
  world (GetMultiplePrices c ctx keys st).2 = w.
Proof.
  intros Hkeys Hchunks Hpre Hreq Hdo Hread Hne _. unfold batchRequest in Hreq.
  destruct (doGet_returned _ _ _ _ _ _ _ _ Hreq Hdo) as (st2 & Hget & Hw & Hs).
  pose proof (doGet_answered _ _ _ _ _ _ _ _ Hreq Hdo) as Hval.
  rewrite Hread in Hval.
  destruct (Z.eqb_spec (http_StatusCode resp) 200) as [| _]; [done |].
  assert (fetchBatch c ctx batch st1
          = (Err (apiError {| StatusCode := http_StatusCode resp;
                              Message := string_of_list_byte body;
                              Path := "/defi/multi_price" |}), st2)) as Hfetch.
  { unfold fetchBatch. rewrite Hget, Hval. reflexivity. }
  assert (keys <> []) as Hnil.
  { intros ->. by destruct pre. }
  rewrite GetMultiplePrices_valid by done. rewrite Hchunks.
  rewrite (runBatches_abort _ _ _ _ _ _ Hpre _ _ _ _ _ Hfetch). done.
Qed.

Lemma fetchBatch_silent c ctx batch st :
  client_logger c = noopLogger ->
  logsink (fetchBatch c ctx batch st).2 = logsink st.
Proof.
  intros Hlog. unfold fetchBatch.
  pose proof (doGet_silent c ctx "/defi/multi_price" (batchParams batch) st Hlog).
  by destruct (doGet _ _ _ _ _) as [[body | e] st1].
Qed.

Lemma runBatches_silent c ctx batches :
  client_logger c = noopLogger ->
  forall res st, logsink (runBatches c ctx batches res st).2 = logsink st.
Proof.
  intros Hlog. induction batches as [| batch rest IH]; intros res st; [done |].
  simpl. pose proof (fetchBatch_silent c ctx batch st Hlog) as Hb.
  destruct (fetchBatch c ctx batch st) as [[m | e] st1]; simpl in *.
  - by rewrite IH.
  - done.
Qed.

End BatchExtras.

Section Silence.
Context `{P : Platform} {UPriceData : Unmarshal PriceData}
  {UPrices : Unmarshal (gmap string decimal)}
  {UTokenOverview : Unmarshal TokenOverview}
  {UTokenSecurity : Unmarshal TokenSecurity}.

Ltac lookup_silent Hlog :=
  unfold bind, ret, logWith;
  match goal with
  | |- context [doGet ?c ?ctx ?path ?params ?st] =>
      pose proof (doGet_silent c ctx path params st Hlog);
      destruct (doGet c ctx path params st) as [[?body | ?e] ?st1]
  end; simpl in *; [| done];
  destruct (parseResponse _); simpl; [by rewrite Hlog | done].

(** X10. A client whose logger is the no-op logger (the default) never
    touches the log sink: not in [doGet], not in the three single-token
    lookups, not in [GetMultiplePrices], on any path. *)
Theorem noop_logger_silent (c : Client) (ctx : Context) :
  client_logger c = noopLogger ->
  (forall path params st,
     logsink (doGet c ctx path params st).2 = logsink st) /\
  (forall address st, logsink (GetPrice c ctx address st).2 = logsink st) /\
  (forall address st,
     logsink (GetTokenOverview c ctx address st).2 = logsink st) /\
  (forall address st,
     logsink (GetTokenSecurity c ctx address st).2 = logsink st) /\
  (forall keys st,
     logsink (GetMultiplePrices c ctx keys st).2 = logsink st).
Proof.
  intros Hlog. split; [| split; [| split; [| split]]].
  - intros. by apply doGet_silent.
  - intros address st. unfold GetPrice.
    destruct (String.eqb address ""); [done |]. lookup_silent Hlog.
  - intros address st. unfold GetTokenOverview.
    destruct (String.eqb address ""); [done |]. lookup_silent Hlog.
  - intros address st. unfold GetTokenSecurity.
    destruct (String.eqb address ""); [done |]. lookup_silent Hlog.
  - intros keys st. unfold GetMultiplePrices.
    destruct (decide (length keys = 0%nat)); [done |].
    destruct (existsb _ keys); [done |].
    unfold bind, ret, logWith. rewrite batchLoop_runBatches.
    pose proof (runBatches_silent c ctx (chunksFrom keys 0) Hlog ∅ st) as Hs.
    destruct (runBatches _ _ _ _ _) as [[res | e] st1]; simpl in *;
      [by rewrite Hlog | done].
Qed.

End Silence.

(** ** The further properties on the example platform *)

Lemma doGet_request_shape_witness :
  exists req,
    buildRequest (P := scripted) exampleClient background "/defi/price"
      (addressParams "x") = Ok req /\
    req_Method req = "GET" /\
    req_URL req = "https://public-api.birdeye.so/defi/price?address" /\
    req_Header req !! "X-API-KEY" = Some ["k"].
Proof.
  eexists. split; [reflexivity |].
  destruct (doGet_request_shape (P := scripted) exampleClient background
              "/defi/price" (addressParams "x") _ eq_refl)
    as (_ & Hm & _ & _ & Hurl & _ & _ & Hkey & _).
  split; [exact Hm |]. split; [by apply Hurl | by apply Hkey].
Defined.

Lemma doGet_execute_failure_witness :
  exists err,
    (doGet (P := scripted) exampleClient background "/defi/price"
       (addressParams "x") (exampleState [])).1 = Err err /\
    err = wrapError ("execute request: " +:+ "connection refused")
            (errorString "connection refused") /\
    error_Error err = "execute request: " +:+ "connection refused" /\
    IsAPIError (Some err) = (None, false).
Proof.
  edestruct (doGet_execute_failure (P := scripted) exampleClient background
               "/defi/price" (addressParams "x") (exampleState []))
    as (err & H1 & H2 & H3 & H4 & _); [reflexivity | reflexivity |].
  exists err. split; [exact H1 |]. split; [exact H2 |].
  split; [exact H3 | exact H4].
Defined.

Lemma doGet_read_failure_witness :
  exists err,
    (doGet (P := scripted) exampleClient background "/defi/price"
       (addressParams "x") (exampleState [brokenResponse 200 "{"])).1
    = Err err /\
    err = wrapError ("read response body: " +:+ "unexpected EOF")
            (errorString "unexpected EOF") /\
    IsAPIError (Some err) = (None, false).
Proof.
  edestruct (doGet_read_failure (P := scripted) exampleClient background
               "/defi/price" (addressParams "x")
               (exampleState [brokenResponse 200 "{"]))
    as (err & H1 & H2 & H3 & _); [reflexivity | reflexivity | reflexivity |].
  exists err. repeat split; done.
Defined.


Lemma parseResponse_malformed_wrapped_witness :
  exists err,
    parseResponse (U := examplePrices) [] = Err err /\
    err = wrapError ("unmarshal response: " +:+ "unexpected end of JSON input")
            (errorString "unexpected end of JSON input") /\
    error_Error err = "unmarshal response: " +:+ "unexpected end of JSON input" /\
    IsAPIError (Some err) = (None, false).
Proof.
  apply (parseResponse_malformed_wrapped (U := examplePrices) []
           (errorString "unexpected end of JSON input")).
  reflexivity.
Defined.

Lemma GetPrice_outcomes_witness :
  (GetPrice (P := retrying) (UPriceData := retryingPriceData) retryingClient
     background "unknown-token"
     (retryingState [errorResponse 404 "not found"])).1
  = Err (apiError {| StatusCode := 404; Message := "not found";
                     Path := "/defi/price" |}).
Proof.
  edestruct (GetPrice_outcomes (P := retrying)
               (UPriceData := retryingPriceData)
               retryingClient background "unknown-token"
               (retryingState [errorResponse 404 "not found"]))
    as (_ & _ & _ & _ & Hother);
    [discriminate | reflexivity | reflexivity | reflexivity
    | right; split; [discriminate | reflexivity] |].
  apply Hother. discriminate.
Defined.

Lemma GetTokenOverview_outcomes_witness :
  (GetTokenOverview (P := retrying) (UTokenOverview := retryingOverview)
     retryingClient background "test-token"
     (retryingState [errorResponse 404 "not found"])).1
  = Err (apiError {| StatusCode := 404; Message := "not found";
                     Path := "/defi/token_overview" |}).
Proof.
  edestruct (GetTokenOverview_outcomes (P := retrying)
               (UTokenOverview := retryingOverview)
               retryingClient background "test-token"
               (retryingState [errorResponse 404 "not found"]))
    as (_ & _ & _ & _ & Hother);
    [discriminate | reflexivity | reflexivity | reflexivity
    | right; split; [discriminate | reflexivity] |].
  apply Hother. discriminate.
Defined.

Lemma GetTokenSecurity_outcomes_witness :
  (GetTokenSecurity (P := retrying) (UTokenSecurity := exampleSecurity)
     retryingClient background "test-token"
     (retryingState [errorResponse 404 "not found"])).1
  = Err (apiError {| StatusCode := 404; Message := "not found";
                     Path := "/defi/token_security" |}).
Proof.
  edestruct (GetTokenSecurity_outcomes (P := retrying)
               (UTokenSecurity := exampleSecurity)
               retryingClient background "test-token"
               (retryingState [errorResponse 404 "not found"]))
    as (_ & _ & _ & _ & Hother);
    [discriminate | reflexivity | reflexivity | reflexivity
    | right; split; [discriminate | reflexivity] |].
  apply Hother. discriminate.
Defined.

Lemma NewClient_override_bypasses_retry_witness :
  NewClient (P := scripted) "k"
    [WithHTTPClient (Some (@customClient scripted scripted_Do)); WithMaxRetries 7]
  = NewClient (P := scripted) "k"
      [WithTimeout 1; WithRetryWait 5 6;
       WithHTTPClient (Some (@customClient scripted scripted_Do))].
Proof.
  apply (NewClient_override_bypasses_retry (P := scripted) "k"
           [WithHTTPClient (Some (@customClient scripted scripted_Do)); WithMaxRetries 7]
           [WithTimeout 1; WithRetryWait 5 6;
            WithHTTPClient (Some (@customClient scripted scripted_Do))]
           (@customClient scripted scripted_Do));
    [discriminate | reflexivity | reflexivity | reflexivity | reflexivity].
Defined.

Lemma NewClient_retry_settings_witness :
  exists c,
    NewClient (P := scripted) "k" [WithMaxRetries 0; WithTimeout (30 * Second)]
    = Ok c /\
    client_httpClient c
    = retryableStandardClient
        {| RetryMax := 0;
           RetryWaitMin := 500000000;
           RetryWaitMax := 3000000000;
           HTTPClient_Timeout := 30000000000;
           RetryLogger := None;
           CheckRetry := NewClient_CheckRetry |}.
Proof.
  apply (NewClient_retry_settings (P := scripted) "k"
           [WithMaxRetries 0; WithTimeout (30 * Second)]);
    [discriminate | reflexivity].
Defined.

Lemma noop_logger_silent_witness :
  logsink (GetMultiplePrices (P := scripted) (UPrices := examplePrices)
             exampleClient background ["a"; "b"]
             (exampleState [errorResponse 500 "down"])).2 = [].
Proof.
  apply (noop_logger_silent (P := scripted) (UPriceData := examplePriceData)
           (UPrices := examplePrices) (UTokenOverview := exampleOverview)
           (UTokenSecurity := exampleSecurity) exampleClient background).
  reflexivity.
Defined.

Lemma GetMultiplePrices_lookup_witness :
  exists res,
    (GetMultiplePrices (P := scripted) (UPrices := examplePrices)
       exampleClient background (replicate 150 "a")
       (exampleState [okResponse "x"; okResponse "y"])).1 = Ok res /\
    (forall k, res !! k = latestPrice [{[ "x" := 1 ]}; {[ "y" := 1 ]}] k) /\
    (forall k, is_Some (res !! k) <->
               exists m, m ∈ [({[ "x" := 1 ]} : gmap string Z); {[ "y" := 1 ]}]
                         /\ is_Some (m !! k)).
Proof.
  eapply (GetMultiplePrices_lookup (P := scripted) (UPrices := examplePrices)
            exampleClient background (replicate 150 "a")
            (exampleState [okResponse "x"; okResponse "y"])).
  - apply Forall_replicate. discriminate.
  - rewrite chunksOf_150 by reflexivity.
    eapply (succeed_cons (P := scripted) (UPrices := examplePrices)); [vm_compute; reflexivity |].
    eapply (succeed_cons (P := scripted) (UPrices := examplePrices)); [vm_compute; reflexivity |].
    apply (succeed_nil (P := scripted) (UPrices := examplePrices)).
Defined.

Lemma GetMultiplePrices_status_error_witness :
  (GetMultiplePrices (P := retrying) (UPrices := examplePrices)
     retryingClient background (replicate 101 "a")
     (retryingState [okResponse "x"; errorResponse 404 "not found"])).1
  = Err (apiError {| StatusCode := 404; Message := "not found";
                     Path := "/defi/multi_price" |}).
Proof.
  pose (st1 := (fetchBatch (P := retrying) (UPrices := examplePrices)
                  retryingClient background (replicate 100 "a")
                  (retryingState [okResponse "x";
                                  errorResponse 404 "not found"])).2).
  pose (req := match batchRequest (P := retrying) retryingClient background
                       ["a"] with
               | Ok r => r
               | Err _ => mkRequest background "" "" ∅
               end).
  refine (proj1 (GetMultiplePrices_status_error (P := retrying)
                  (UPrices := examplePrices) retryingClient background
                  (replicate 101 "a")
                  (retryingState [okResponse "x"; errorResponse 404 "not found"])
                  st1 [replicate 100 "a"] [] ["a"] [{[ "x" := 1 ]}] req
                  (mkResponse 404
                     (mkReadCloser (list_byte_of_string "not found", None)
                        None))
                  [] (list_byte_of_string "not found") _ _ _ _ _ _ _ _)).
  - apply Forall_replicate. discriminate.
  - vm_compute. reflexivity.
  - eapply (succeed_cons (P := retrying) (UPrices := examplePrices));
      [vm_compute; reflexivity
      | apply (succeed_nil (P := retrying) (UPrices := examplePrices))].
  - reflexivity.
  - vm_compute. reflexivity.
  - reflexivity.
  - discriminate.
  - right. split; [discriminate | reflexivity].
Defined.

(** * The retrying client and the statuses it retries *)

(** A status that is retried on every attempt uses up the retries, and the
    loop gives up without handing back the response. *)
Lemma retryablehttp_attempts_give_up (rc : RetryableClient) (req : Request)
    (resp : Response) (rest : list (result Response)) :
  CheckRetry rc = NewClient_CheckRetry ->
  ctx_Err (req_ctx req) = None ->
  http_StatusCode resp = 429 \/ http_StatusCode resp >= 500 ->
  forall (remain : nat) (attempt : Z),
    retryablehttp_attempts rc scripted_Do req remain attempt
      (replicate (S remain) (Ok resp) ++ rest)%list
    = (Err (retryablehttp_giveUp req (attempt + Z.of_nat remain) None), rest).
Proof.
  intros Hcheck Hctx Hs.
  assert (NewClient_CheckRetry (req_ctx req) (Some resp) None
          = Some (true, None)) as Hretry.
  { rewrite CheckRetry_status by done.
    replace ((http_StatusCode resp =? 429) || (http_StatusCode resp >=? 500))
      with true; [done |].
    symmetry. apply orb_true_iff. lia. }
  induction remain as [| remain IH]; intros attempt.
  - simpl. rewrite Hcheck, Hretry. simpl. by rewrite Z.add_0_r.
  - change (replicate (S (S remain)) (Ok resp) ++ rest)%list
      with (Ok resp :: (replicate (S remain) (Ok resp) ++ rest)%list).
    cbn [retryablehttp_attempts scripted_Do].
    rewrite Hcheck, Hretry, Hctx, IH. do 3 f_equal. lia.
Qed.

(** C4. On the client [NewClient] builds without an override, a status the
    retry decision retries never reaches [doGet] as a response: when every
    attempt (the first and the [maxRetries] retries) is answered with a 429
    or a status of 500 or more, the library gives up with an error, and
    [doGet] returns that error wrapped under "execute request: ". It is no
    [APIError]: [IsAPIError] finds none in it, so neither [IsRateLimited]
    nor [IsServerError] can be asked of it. *)
Theorem doGet_retried_status_gives_up (apiKey : string)
    (opts : list (@Option retrying)) (c : @Client retrying) (ctx : Context)
    (path : string) (params : Values) (st : @State retrying) (req : Request)
    (resp : Response) (rest : list (result Response)) :
  NewClient apiKey opts = Ok c ->
  httpClient (resolveConfig opts) = None ->
  ctx_Err ctx = None ->
  buildRequest c ctx path params = Ok req ->
  http_StatusCode resp = 429 \/ http_StatusCode resp >= 500 ->
  world st
  = (replicate (S (Z.to_nat (maxRetries (resolveConfig opts)))) (Ok resp)
       ++ rest)%list ->
  exists err,
    (doGet c ctx path params st).1 = Err err /\
    IsAPIError (Some err) = (None, false) /\
    error_Error err
    = "execute request: Get " +:+ dquote +:+ req_URL req +:+ dquote
        +:+ ": GET " +:+ req_URL req +:+ " giving up after "
        +:+ itoa (1 + Z.of_nat (Z.to_nat (maxRetries (resolveConfig opts))))
        +:+ " attempt(s)" /\
    world (doGet c ctx path params st).2 = rest.
Proof.
  intros Hnew Hnone Hctx Hreq Hs Hworld.
  assert (req_ctx req = ctx /\ req_Method req = "GET") as [Hrc Hm].
  { unfold buildRequest, http_NewRequestWithContext in Hreq.
    destruct (http_NewRequest_check _ _); [discriminate |].
    by injection Hreq as <-. }
  assert (client_httpClient c
          = retryableStandardClient (newRetryClient (resolveConfig opts)))
    as Hcl.
  { unfold NewClient in Hnew. destruct (decide (apiKey = "")); [discriminate |].
    injection Hnew as <-. simpl. by rewrite Hnone. }
  assert (HTTPClient_Do (client_httpClient c) req (world st)
          = (Err (wrapError
                    ("Get " +:+ dquote +:+ req_URL req +:+ dquote +:+ ": "
                       +:+ error_Error
                             (retryablehttp_giveUp req
                                (1 + Z.of_nat
                                       (Z.to_nat (maxRetries (resolveConfig opts))))
                                None))
                    (retryablehttp_giveUp req
                       (1 + Z.of_nat (Z.to_nat (maxRetries (resolveConfig opts))))
                       None)), rest)) as Hdo.
  { rewrite Hcl, Hworld.
    change (HTTPClient_Do _ req ?w)
      with (StandardClient_Do (newRetryClient (resolveConfig opts))
              scripted_Do req w).
    unfold StandardClient_Do, retryablehttp_Client_Do.
    change (RetryMax (newRetryClient (resolveConfig opts)))
      with (maxRetries (resolveConfig opts)).
    rewrite retryablehttp_attempts_give_up; [reflexivity | reflexivity | | done].
    by rewrite Hrc. }
  eexists. split; [by eapply doGet_not_executed |]. split; [reflexivity |].
  split.
  - simpl. rewrite Hm. reflexivity.
  - by eapply doGet_world.
Qed.

Lemma doGet_retried_status_gives_up_witness :
  exists err,
    (doGet (P := retrying) retryingClient background "/defi/token_overview"
       (addressParams "x")
       (@mkState retrying (replicate 4 (errorResponse 429 "slow down")) [] [])).1
    = Err err /\
    IsAPIError (Some err) = (None, false).
Proof.
  pose (req := match buildRequest (P := retrying) retryingClient background
                       "/defi/token_overview" (addressParams "x") with
               | Ok r => r
               | Err _ => mkRequest background "" "" ∅
               end).
  edestruct (doGet_retried_status_gives_up "k" [] retryingClient background
               "/defi/token_overview" (addressParams "x")
               (@mkState retrying (replicate 4 (errorResponse 429 "slow down"))
                  [] [])
               req (mkResponse 429
                    (mkReadCloser (list_byte_of_string "slow down", None) None))
               [])
    as (err & H1 & H2 & _);
    [reflexivity | reflexivity | reflexivity | reflexivity | by left
    | reflexivity |].
  exists err. split; [exact H1 | exact H2].
Defined.

(** The same on a 503 with retries switched off, as the error a caller
    sees. *)
Example doGet_503_without_retries :
  match NewClient (P := retrying) "k" [WithMaxRetries 0] with
  | Ok c =>
      (doGet c background "/defi/price" ∅
         (@mkState retrying [errorResponse 503 "unavailable"] [] [])).1
      = Err (wrapError
               ("execute request: Get " +:+ dquote
                  +:+ "https://public-api.birdeye.so/defi/price" +:+ dquote
                  +:+ ": GET https://public-api.birdeye.so/defi/price"
                  +:+ " giving up after 1 attempt(s)")
               (wrapError
                  ("Get " +:+ dquote
                     +:+ "https://public-api.birdeye.so/defi/price" +:+ dquote
                     +:+ ": GET https://public-api.birdeye.so/defi/price"
                     +:+ " giving up after 1 attempt(s)")
                  (errorString
                     ("GET https://public-api.birdeye.so/defi/price"
                        +:+ " giving up after 1 attempt(s)"))))
  | Err _ => False
  end.
Proof. reflexivity. Qed.

(** A status that is not retried is handed back, and becomes the
    [APIError]; a retried status followed by a 200 gives the body. *)
Example doGet_404_on_retrying_client :
  (doGet (P := retrying) retryingClient background "/defi/token_overview"
     (addressParams "x")
     (@mkState retrying [errorResponse 404 "not found"] [] [])).1
  = Err (apiError {| StatusCode := 404; Message := "not found";
                     Path := "/defi/token_overview" |}).
Proof. reflexivity. Qed.

Example doGet_503_then_200 :
  (doGet (P := retrying) retryingClient background "/defi/price"
     (addressParams "x")
     (@mkState retrying [errorResponse 503 ""; okResponse "fine"] [] [])).1
  = Ok (list_byte_of_string "fine").
Proof. reflexivity. Qed.
